(** * Three-repeat code over UART: the encode and decode character devices

    A shallow embedding of [encode.c] and [decode.c].  Each file is a Linux
    character device with two static buffers ([message], [temp]), a pending
    length [messageSize] and the callbacks [dev_open], [dev_read],
    [dev_write], [dev_release].  Buffers are lists of bytes of the declared
    size; every array access is bounds-checked in the model, so that a
    result [Ok _] means that no access left its array and that the scan
    loop came to an end. *)

From stdpp Require Import base list strings.
From Stdlib Require Import ZArith Lia Bool.

Local Open Scope Z_scope.

(** ** Outcomes of a callback *)

Inductive outcome (A : Type) : Type :=
| Ok (a : A)
| OutOfBounds
| OutOfFuel.
Arguments Ok {A} a.
Arguments OutOfBounds {A}.
Arguments OutOfFuel {A}.

Definition bind {A B : Type} (c : outcome A) (k : A -> outcome B) : outcome B :=
  match c with
  | Ok a => k a
  | OutOfBounds => OutOfBounds
  | OutOfFuel => OutOfFuel
  end.

Declare Scope outcome_scope.
Delimit Scope outcome_scope with outcome.
Notation "'let*' p ':=' c 'in' k" := (bind c (fun p => k))
  (at level 10, p pattern, c at level 100, k at level 200,
   format "'[v' 'let*'  p  ':='  c  'in' '/' k ']'") : outcome_scope.
Local Open Scope outcome_scope.

(** ** Machine integers and bytes *)

(** A [char] is kept as its bit pattern, a number in [0, 256). *)
Definition is_byte (b : Z) : Prop := 0 <= b < 256.

(** Integer promotion of a [char]: sign extension where [char] is signed
    (x86), the value itself where it is unsigned (ARM). *)
Definition int_of_char (char_signed : bool) (c : Z) : Z :=
  if char_signed && (128 <=? c) then c - 256 else c.

(** Conversion of an [int] to [char]: the low eight bits. *)
Definition char_of_int (z : Z) : Z := z mod 256.

(** Conversion to [short]: wrap-around on 16 bits, two's complement. *)
Definition short_of (z : Z) : Z := (z + 32768) mod 65536 - 32768.

(** Conversion to [int]: wrap-around on 32 bits, two's complement. *)
Definition int_of (z : Z) : Z := (z + 2147483648) mod 4294967296 - 2147483648.

Definition EFAULT : Z := 14.

(** ** Arrays *)

(** [buf[i]] as an rvalue. *)
Definition load (buf : list Z) (i : Z) : outcome Z :=
  if 0 <=? i then
    match buf !! Z.to_nat i with
    | Some v => Ok v
    | None => OutOfBounds
    end
  else OutOfBounds.

(** [buf[i] = v]. *)
Definition store (buf : list Z) (i : Z) (v : Z) : outcome (list Z) :=
  if (0 <=? i) && (i <? Z.of_nat (length buf))
  then Ok (<[Z.to_nat i := v]> buf)
  else OutOfBounds.

(** [copy_from_user(dst, src, len)] from a readable user buffer [src]:
    the first [len] cells of [dst] are overwritten.  The callbacks ignore
    the return value, and the model takes the user memory as readable. *)
Definition copy_from_user (dst src : list Z) (len : Z) : outcome (list Z) :=
  if (0 <=? len) && (len <=? Z.of_nat (length dst))
  then Ok (take (Z.to_nat len) src ++ drop (Z.to_nat len) dst)
  else OutOfBounds.

(** [copy_to_user(to, src, n)] where the first [writable] bytes at [to] can
    be written: the bytes that arrive in user memory and the number of
    bytes that could not be copied. *)
Definition copy_to_user (writable : nat) (src : list Z) (n : Z)
  : outcome (list Z * Z) :=
  if (0 <=? n) && (n <=? Z.of_nat (length src))
  then Ok (take (Nat.min (Z.to_nat n) writable) src,
           n - Z.of_nat (Nat.min (Z.to_nat n) writable))
  else OutOfBounds.

(** ** Device state: the static variables of one module *)

Record device : Type := Device {
  message : list Z;
  temp : list Z;
  messageSize : Z;
  numberOpens : Z
}.

(** What a callback hands back: the new state, the returned [ssize_t] (or
    [int]) and the bytes that reached user memory. *)
Record reply : Type := Reply {
  state : device;
  ret : Z;
  sent : list Z
}.

(** The calls user space can make on an open device file. *)
Inductive call : Type :=
| Open
| Read (writable : nat)
| Write (buffer : list Z)
| Release.

Definition is_write (c : call) : bool :=
  match c with Write _ => true | _ => false end.

(** ** encode.c *)

Module Encode.

Definition MESSAGE_LEN : nat := 769.
Definition TEMP_LEN : nat := 256.

(** The static initialisers. *)
Definition init : device :=
  {| message := replicate MESSAGE_LEN 0;
     temp := replicate TEMP_LEN 0;
     messageSize := 0;
     numberOpens := 0 |}.

Definition dev_open (st : device) : outcome reply :=
  Ok {| state := {| message := message st; temp := temp st;
                    messageSize := messageSize st;
                    numberOpens := int_of (numberOpens st + 1) |};
        ret := 0; sent := [] |}.

Definition dev_read (st : device) (writable : nat) : outcome reply :=
  let* (delivered, error_count) :=
    copy_to_user writable (message st) (messageSize st) in
  let sendLength := messageSize st in
  let st' := {| message := message st; temp := temp st;
                messageSize := 0; numberOpens := numberOpens st |} in
  if error_count =? 0
  then Ok {| state := st'; ret := sendLength; sent := delivered |}
  else Ok {| state := st'; ret := - EFAULT; sent := delivered |}.

(** The loop [while(temp[i]){ message[3*i+2]=message[3*i+1]=message[3*i]=temp[i]; i++; }]. *)
Fixpoint triple_loop (fuel : nat) (tmp msg : list Z) (i : Z)
  : outcome (Z * list Z) :=
  match fuel with
  | O => OutOfFuel
  | S fuel' =>
      let* c := load tmp i in
      if c =? 0 then Ok (i, msg)
      else
        let* v := load tmp i in
        let* msg := store msg (3 * i) v in
        let* msg := store msg (3 * i + 1) v in
        let* msg := store msg (3 * i + 2) v in
        triple_loop fuel' tmp msg (short_of (i + 1))
  end.

(** The loop reads [temp[i]] before each round, so it cannot run for more
    rounds than [temp] has cells without leaving the array. *)
Definition fuel : nat := S TEMP_LEN.

(** The first half of [dev_write]: clamp, copy in, force the terminator. *)
Definition prepare (st : device) (buffer : list Z) : outcome (Z * list Z) :=
  let len := Z.of_nat (length buffer) in
  let len := if 256 <? len then 256 else len in
  let* tmp := copy_from_user (temp st) buffer len in
  let* tmp := store tmp (len - 1) 0 in
  Ok (len, tmp).

Definition dev_write (st : device) (buffer : list Z) : outcome reply :=
  let* (len, tmp) := prepare st buffer in
  let* (i, msg) := triple_loop fuel tmp (message st) 0 in
  let* msg := store msg (3 * i) 0 in
  Ok {| state := {| message := msg; temp := tmp;
                    messageSize := short_of (i * 3 + 1);
                    numberOpens := numberOpens st |};
        ret := len; sent := [] |}.

Definition dev_release (st : device) : outcome reply :=
  Ok {| state := st; ret := 0; sent := [] |}.

Definition step (st : device) (c : call) : outcome reply :=
  match c with
  | Open => dev_open st
  | Read writable => dev_read st writable
  | Write buffer => dev_write st buffer
  | Release => dev_release st
  end.

Fixpoint run (st : device) (cs : list call) : outcome device :=
  match cs with
  | [] => Ok st
  | c :: cs' => let* r := step st c in run (state r) cs'
  end.

End Encode.

(** ** decode.c *)

Module Decode.

Definition IN_BUFF_SIZE : nat := 769.
Definition MESSAGE_LEN : nat := 256.

Definition init : device :=
  {| message := replicate MESSAGE_LEN 0;
     temp := replicate IN_BUFF_SIZE 0;
     messageSize := 0;
     numberOpens := 0 |}.

Definition dev_open (st : device) : outcome reply :=
  Ok {| state := {| message := message st; temp := temp st;
                    messageSize := messageSize st;
                    numberOpens := int_of (numberOpens st + 1) |};
        ret := 0; sent := [] |}.

Definition dev_read (st : device) (writable : nat) : outcome reply :=
  let* (delivered, error_count) :=
    copy_to_user writable (message st) (messageSize st) in
  let sendLength := messageSize st in
  let st' := {| message := message st; temp := temp st;
                messageSize := 0; numberOpens := numberOpens st |} in
  if error_count =? 0
  then Ok {| state := st'; ret := sendLength; sent := delivered |}
  else Ok {| state := st'; ret := - EFAULT; sent := delivered |}.

Section Char.

(** Whether plain [char] is signed on the target. *)
Variable char_signed : bool.

(** [(first&second&third)|((~first)&second&third)|(first&(~second)&third)|(first&second&(~third))],
    computed on the promoted operands and stored into a [char]. *)
Definition vote (first second third : Z) : Z :=
  let a := int_of_char char_signed first in
  let b := int_of_char char_signed second in
  let c := int_of_char char_signed third in
  char_of_int
    (Z.lor
       (Z.lor
          (Z.lor (Z.land (Z.land a b) c)
                 (Z.land (Z.land (Z.lnot a) b) c))
          (Z.land (Z.land a (Z.lnot b)) c))
       (Z.land (Z.land a b) (Z.lnot c))).

(** The loop [while(temp[i]){ ...; message[i/3]=...; i+=3; }]. *)
Fixpoint vote_loop (fuel : nat) (tmp msg : list Z) (i : Z)
  : outcome (Z * list Z) :=
  match fuel with
  | O => OutOfFuel
  | S fuel' =>
      let* c := load tmp i in
      if c =? 0 then Ok (i, msg)
      else
        let* first := load tmp i in
        let* second := load tmp (i + 1) in
        let* third := load tmp (i + 2) in
        let* msg := store msg (Z.quot i 3) (vote first second third) in
        vote_loop fuel' tmp msg (short_of (i + 3))
  end.

(** One round more than [temp] has cells, as for the encoder. *)
Definition fuel : nat := S IN_BUFF_SIZE.

(** The first half of [dev_write]: clamp to [IN_BUFF_SIZE], copy in, force
    the terminator. *)
Definition prepare (st : device) (buffer : list Z) : outcome (Z * list Z) :=
  let len := Z.of_nat (length buffer) in
  let len :=
    if Z.of_nat IN_BUFF_SIZE <? len then Z.of_nat IN_BUFF_SIZE else len in
  let* tmp := copy_from_user (temp st) buffer len in
  let* tmp := store tmp (len - 1) 0 in
  Ok (len, tmp).

Definition dev_write (st : device) (buffer : list Z) : outcome reply :=
  let* (len, tmp) := prepare st buffer in
  let* (i, msg) := vote_loop fuel tmp (message st) 0 in
  Ok {| state := {| message := msg; temp := tmp;
                    messageSize := short_of (Z.quot i 3);
                    numberOpens := numberOpens st |};
        ret := len; sent := [] |}.

Definition dev_release (st : device) : outcome reply :=
  Ok {| state := st; ret := 0; sent := [] |}.

Definition step (st : device) (c : call) : outcome reply :=
  match c with
  | Open => dev_open st
  | Read writable => dev_read st writable
  | Write buffer => dev_write st buffer
  | Release => dev_release st
  end.

Fixpoint run (st : device) (cs : list call) : outcome device :=
  match cs with
  | [] => Ok st
  | c :: cs' => let* r := step st c in run (state r) cs'
  end.

End Char.

End Decode.

(** ** Reference functions of the wire format *)

(** Each byte three times in a row. *)
Fixpoint triplicate (l : list Z) : list Z :=
  match l with
  | [] => []
  | b :: l' => b :: b :: b :: triplicate l'
  end.

(** The bytes before the first zero byte. *)
Fixpoint upto_nul (l : list Z) : list Z :=
  match l with
  | [] => []
  | b :: l' => if b =? 0 then [] else b :: upto_nul l'
  end.

(** A buffer without its final byte. *)
Definition all_but_last (l : list Z) : list Z := take (length l - 1) l.

(** Majority of three bits. *)
Definition majority (x y z : bool) : bool := (x && y) || (y && z) || (x && z).

(** The three-term form [(a & b) | (b & c) | (a & c)]. *)
Definition maj3 (a b c : Z) : Z :=
  Z.lor (Z.lor (Z.land a b) (Z.land b c)) (Z.land a c).

(** The channel: what the encoder's reader passes on is written to the
    decoder, and the decoder's reader collects the result. *)
Definition transmit (char_signed : bool) (enc dec : device)
    (channel : list Z -> list Z) (x : list Z) : outcome (list Z) :=
  let* w := Encode.dev_write enc x in
  let* r := Encode.dev_read (state w) Encode.MESSAGE_LEN in
  let* w' := Decode.dev_write char_signed dec (channel (sent r)) in
  let* r' := Decode.dev_read (state w') Decode.MESSAGE_LEN in
  Ok (sent r').

(** Flipping the bits of [mask] in one byte. *)
Definition flip_bits (mask b : Z) : Z := Z.lxor b mask.

(** A channel that flips the bits of [mask] in copy [c] of triplet [t]. *)
Definition corrupt (t c : nat) (mask : Z) (data : list Z) : list Z :=
  alter (flip_bits mask) (3 * t + c)%nat data.

(** A channel without noise. *)
Definition clean (data : list Z) : list Z := data.

(** Buffers of the declared sizes. *)
Definition enc_sized (st : device) : Prop :=
  length (message st) = Encode.MESSAGE_LEN /\ length (temp st) = Encode.TEMP_LEN.

Definition dec_sized (st : device) : Prop :=
  length (message st) = Decode.MESSAGE_LEN /\
  length (temp st) = Decode.IN_BUFF_SIZE.

(** The state invariants of the two devices: declared sizes, a zero in the
    last cell of [temp], and a pending length that fits [message]. *)
Definition enc_inv (st : device) : Prop :=
  enc_sized st /\ temp st !! 255%nat = Some 0 /\ 0 <= messageSize st <= 766.

Definition dec_inv (st : device) : Prop :=
  dec_sized st /\ temp st !! 768%nat = Some 0 /\ 0 <= messageSize st <= 256.

(** A read that hands nothing to the caller and leaves nothing pending. *)
Definition reads_empty (o : outcome reply) : Prop :=
  exists r, o = Ok r /\ ret r = 0 /\ sent r = [] /\ messageSize (state r) = 0.

(** A call that is not a write. *)
Definition idle (c : call) : Prop := is_write c = false.

(** A call other than a write of zero bytes. *)
Definition nonempty_write (c : call) : Prop :=
  match c with
  | Write buffer => (1 <= length buffer)%nat
  | _ => True
  end.

(** ** Further reference functions *)

(** Decoding as a function of the received bytes: triplet after triplet,
    up to the first triplet that starts with a zero byte or is not
    complete. *)
Fixpoint decode_ref (char_signed : bool) (l : list Z) : list Z :=
  match l with
  | a :: b :: c :: rest =>
      if a =? 0 then []
      else Decode.vote char_signed a b c :: decode_ref char_signed rest
  | _ => []
  end.

(** A channel that flips, in the byte at every place, the bits of the byte
    of the error pattern [e] at that place. *)
Definition noise (e : list Z) (data : list Z) : list Z :=
  zip_with Z.lxor data e.

(** Three masks with no bit in common: at every bit position at most one
    of them flips. *)
Definition disjoint_masks (e0 e1 e2 : Z) : Prop :=
  Z.land e0 e1 = 0 /\ Z.land e0 e2 = 0 /\ Z.land e1 e2 = 0.

(** The number of [open] calls in a sequence of calls. *)
Fixpoint count_opens (cs : list call) : nat :=
  match cs with
  | [] => 0%nat
  | Open :: cs' => S (count_opens cs')
  | _ :: cs' => count_opens cs'
  end.

(** [numberOpens] after one call. *)
Definition opens_after (c : call) (n : Z) : Z :=
  match c with
  | Open => int_of (n + 1)
  | _ => n
  end.

(** A call that is an [open] or a [release]. *)
Definition opens_or_releases (c : call) : Prop :=
  match c with
  | Open | Release => True
  | _ => False
  end.

(** ** Module initialisation and exit

    The kernel services that [encodeInit], [encodeExit], [decodeInit] and
    [decodeExit] call are outside the two files.  Each call is recorded,
    with its arguments and its result, in a trace; the results of the three
    registering services are read from a record of kernel replies. *)

Inductive kcall : Type :=
| register_chrdev (major : Z) (name : string) (result : Z)
| unregister_chrdev (major : Z) (name : string)
| class_create (name : string) (result : Z)
| class_unregister (cls : Z)
| class_destroy (cls : Z)
| device_create (cls : Z) (devt : Z) (name : string) (result : Z)
| device_destroy (cls : Z) (devt : Z).

(** What the kernel answers to [register_chrdev], [class_create] and
    [device_create]; pointers are kept as the signed value of their bits. *)
Record kernel : Type := Kernel {
  chrdev_reply : Z;
  class_reply : Z;
  device_reply : Z
}.

(** The statics [majorNumber], [encodeClass] / [decodeClass] and
    [encodeDevice] / [decodeDevice]. *)
Record registration : Type := Registration {
  majorNumber : Z;
  classPtr : Z;
  devicePtr : Z
}.

Definition MAX_ERRNO : Z := 4095.

(** [IS_ERR(ptr)]: the pointer lies in the last [MAX_ERRNO] addresses. *)
Definition IS_ERR (ptr : Z) : bool := (- MAX_ERRNO <=? ptr) && (ptr <? 0).

(** [PTR_ERR(ptr)], a [long]. *)
Definition PTR_ERR (ptr : Z) : Z := ptr.

(** [MKDEV(ma, mi)], with [MINORBITS] = 20. *)
Definition MKDEV (ma mi : Z) : Z := Z.lor (Z.shiftl ma 20) mi.

(** What an init function hands back: the statics, the returned [int] and
    the kernel calls made. *)
Record init_reply : Type := InitReply {
  statics : registration;
  status : Z;
  trace : list kcall
}.

Definition encodeInit (k : kernel) (reg : registration) : init_reply :=
  let DEVICE_NAME := "UARTWrite"%string in
  let CLASS_NAME := "enc"%string in
  let majorNumber := chrdev_reply k in
  let t1 := [register_chrdev 0 DEVICE_NAME majorNumber] in
  if majorNumber <? 0 then
    {| statics := {| majorNumber := majorNumber; classPtr := classPtr reg;
                     devicePtr := devicePtr reg |};
       status := majorNumber; trace := t1 |}
  else
    let encodeClass := class_reply k in
    let t2 := t1 ++ [class_create CLASS_NAME encodeClass] in
    if IS_ERR encodeClass then
      {| statics := {| majorNumber := majorNumber; classPtr := encodeClass;
                       devicePtr := devicePtr reg |};
         status := int_of (PTR_ERR encodeClass);
         trace := t2 ++ [unregister_chrdev majorNumber DEVICE_NAME] |}
    else
      let encodeDevice := device_reply k in
      let t3 := t2 ++ [device_create encodeClass (MKDEV majorNumber 0)
                         DEVICE_NAME encodeDevice] in
      if IS_ERR encodeDevice then
        {| statics := {| majorNumber := majorNumber; classPtr := encodeClass;
                         devicePtr := encodeDevice |};
           status := int_of (PTR_ERR encodeDevice);
           trace := t3 ++ [class_destroy encodeClass;
                           unregister_chrdev majorNumber DEVICE_NAME] |}
      else
        {| statics := {| majorNumber := majorNumber; classPtr := encodeClass;
                         devicePtr := encodeDevice |};
           status := 0; trace := t3 |}.

Definition encodeExit (reg : registration) : list kcall :=
  let DEVICE_NAME := "UARTWrite"%string in
  [device_destroy (classPtr reg) (MKDEV (majorNumber reg) 0);
   class_unregister (classPtr reg);
   class_destroy (classPtr reg);
   unregister_chrdev (majorNumber reg) DEVICE_NAME].

Definition decodeInit (k : kernel) (reg : registration) : init_reply :=
  let DEVICE_NAME := "UARTdecode"%string in
  let CLASS_NAME := "dec"%string in
  let majorNumber := chrdev_reply k in
  let t1 := [register_chrdev 0 DEVICE_NAME majorNumber] in
  if majorNumber <? 0 then
    {| statics := {| majorNumber := majorNumber; classPtr := classPtr reg;
                     devicePtr := devicePtr reg |};
       status := majorNumber; trace := t1 |}
  else
    let decodeClass := class_reply k in
    let t2 := t1 ++ [class_create CLASS_NAME decodeClass] in
    if IS_ERR decodeClass then
      {| statics := {| majorNumber := majorNumber; classPtr := decodeClass;
                       devicePtr := devicePtr reg |};
         status := int_of (PTR_ERR decodeClass);
         trace := t2 ++ [unregister_chrdev majorNumber DEVICE_NAME] |}
    else
      let decodeDevice := device_reply k in
      let t3 := t2 ++ [device_create decodeClass (MKDEV majorNumber 0)
                         DEVICE_NAME decodeDevice] in
      if IS_ERR decodeDevice then
        {| statics := {| majorNumber := majorNumber; classPtr := decodeClass;
                         devicePtr := decodeDevice |};
           status := int_of (PTR_ERR decodeDevice);
           trace := t3 ++ [class_destroy decodeClass;
                           unregister_chrdev majorNumber DEVICE_NAME] |}
      else
        {| statics := {| majorNumber := majorNumber; classPtr := decodeClass;
                         devicePtr := decodeDevice |};
           status := 0; trace := t3 |}.

Definition decodeExit (reg : registration) : list kcall :=
  let DEVICE_NAME := "UARTdecode"%string in
  [device_destroy (classPtr reg) (MKDEV (majorNumber reg) 0);
   class_unregister (classPtr reg);
   class_destroy (classPtr reg);
   unregister_chrdev (majorNumber reg) DEVICE_NAME].

(** What a trace leaves registered with the kernel. *)
Inductive resource : Type :=
| Chrdev (major : Z) (name : string)
| Class (cls : Z)
| Dev (cls : Z) (devt : Z).

Definition resource_eqb (r1 r2 : resource) : bool :=
  match r1, r2 with
  | Chrdev m n, Chrdev m' n' => (m =? m') && String.eqb n n'
  | Class c, Class c' => c =? c'
  | Dev c d, Dev c' d' => (c =? c') && (d =? d')
  | _, _ => false
  end.

(** Releasing takes the resource out of the registered ones; a release of
    something that is not registered is kept aside as stray. *)
Definition release (r : resource) (st : list resource * list resource)
  : list resource * list resource :=
  if existsb (resource_eqb r) (fst st)
  then (List.filter (fun r' => negb (resource_eqb r r')) (fst st), snd st)
  else (fst st, snd st ++ [r]).

Definition acquire (failed : bool) (r : resource)
    (st : list resource * list resource) : list resource * list resource :=
  if failed then st else (fst st ++ [r], snd st).

(** One kernel call.  A char-device region registered with major 0 is held
    under the major the kernel returns. *)
Definition kstep (st : list resource * list resource) (c : kcall)
  : list resource * list resource :=
  match c with
  | register_chrdev major name result =>
      acquire (result <? 0) (Chrdev (if major =? 0 then result else major) name) st
  | unregister_chrdev major name => release (Chrdev major name) st
  | class_create name result => acquire (IS_ERR result) (Class result) st
  | class_unregister cls => release (Class cls) st
  | class_destroy cls => release (Class cls) st
  | device_create cls devt name result =>
      acquire (IS_ERR result) (Dev cls devt) st
  | device_destroy cls devt => release (Dev cls devt) st
  end.

(** The registered resources and the stray releases after a trace. *)
Definition kernel_after (t : list kcall) : list resource * list resource :=
  fold_left kstep t ([], []).

(** * Proofs *)

(** ** Bytes and the vote *)

Lemma short_of_id (z : Z) : -32768 <= z < 32768 -> short_of z = z.
Proof.
  intros H. unfold short_of.
  rewrite Z.mod_small by lia. lia.
Qed.

Lemma testbit_byte_high (b k : Z) : is_byte b -> 8 <= k -> Z.testbit b k = false.
Proof.
  intros Hb Hk. rewrite <- (Z.mod_small b (2 ^ 8)) by (unfold is_byte in Hb; lia).
  apply Z.mod_pow2_bits_high. lia.
Qed.

Lemma testbit_int_of_char (sgn : bool) (c k : Z) :
  0 <= k < 8 -> Z.testbit (int_of_char sgn c) k = Z.testbit c k.
Proof.
  intros Hk. unfold int_of_char.
  destruct (sgn && (128 <=? c)); [|reflexivity].
  rewrite <- (Z.mod_pow2_bits_low (c - 256) 8 k) by lia.
  rewrite <- (Z.mod_pow2_bits_low c 8 k) by lia.
  f_equal. change (2 ^ 8) with 256.
  replace (c - 256) with (c + (-1) * 256) by lia.
  apply Z.mod_add. lia.
Qed.

Lemma testbit_char_of_int (z k : Z) :
  Z.testbit (char_of_int z) k = (0 <=? k) && (k <? 8) && Z.testbit z k.
Proof.
  unfold char_of_int. change 256 with (2 ^ 8).
  destruct (Z.leb_spec 0 k) as [Hk|Hk]; simpl.
  - destruct (Z.ltb_spec k 8) as [Hlt|Hge]; simpl.
    + apply Z.mod_pow2_bits_low. lia.
    + apply Z.mod_pow2_bits_high. lia.
  - apply Z.testbit_neg_r. lia.
Qed.

Lemma vote_bits (sgn : bool) (a b c k : Z) :
  is_byte a -> is_byte b -> is_byte c ->
  Z.testbit (Decode.vote sgn a b c) k =
  majority (Z.testbit a k) (Z.testbit b k) (Z.testbit c k).
Proof.
  intros Ha Hb Hc. unfold Decode.vote. rewrite testbit_char_of_int.
  destruct (Z.leb_spec 0 k) as [Hk|Hk]; simpl.
  - destruct (Z.ltb_spec k 8) as [Hlt|Hge]; simpl.
    + rewrite !Z.lor_spec, !Z.land_spec, !Z.lnot_spec by lia.
      rewrite !testbit_int_of_char by lia.
      unfold majority.
      destruct (Z.testbit a k), (Z.testbit b k), (Z.testbit c k); reflexivity.
    + rewrite !testbit_byte_high by (assumption || lia). reflexivity.
  - rewrite !Z.testbit_neg_r by lia. reflexivity.
Qed.

Lemma maj3_bits (a b c k : Z) :
  Z.testbit (maj3 a b c) k =
  majority (Z.testbit a k) (Z.testbit b k) (Z.testbit c k).
Proof.
  unfold maj3, majority.
  rewrite !Z.lor_spec, !Z.land_spec. reflexivity.
Qed.

Lemma vote_maj3 (sgn : bool) (a b c : Z) :
  is_byte a -> is_byte b -> is_byte c -> Decode.vote sgn a b c = maj3 a b c.
Proof.
  intros Ha Hb Hc. apply Z.bits_inj'. intros k _.
  rewrite maj3_bits. apply vote_bits; assumption.
Qed.

Lemma majority_two (x y : bool) :
  majority x x y = x /\ majority x y x = x /\ majority y x x = x.
Proof. destruct x, y; repeat split; reflexivity. Qed.

(** A vote where two of the three copies agree returns the agreed byte. *)
Lemma vote_outvoted (sgn : bool) (b v : Z) :
  is_byte b -> is_byte v ->
  Decode.vote sgn v b b = b /\ Decode.vote sgn b v b = b /\
  Decode.vote sgn b b v = b.
Proof.
  intros Hb Hv.
  repeat split; apply Z.bits_inj'; intros k _; rewrite vote_bits by assumption;
    apply majority_two.
Qed.

(** ** Arrays *)

Lemma load_nat (buf : list Z) (i : Z) (n : nat) (v : Z) :
  i = Z.of_nat n -> buf !! n = Some v -> load buf i = Ok v.
Proof.
  intros -> H. unfold load.
  destruct (Z.leb_spec 0 (Z.of_nat n)); [|lia].
  rewrite Nat2Z.id, H. reflexivity.
Qed.

Lemma store_nat (buf : list Z) (i : Z) (n : nat) (v : Z) :
  i = Z.of_nat n -> (n < length buf)%nat ->
  store buf i v = Ok (<[n := v]> buf).
Proof.
  intros -> H. unfold store.
  destruct (Z.leb_spec 0 (Z.of_nat n)); [|lia].
  destruct (Z.ltb_spec (Z.of_nat n) (Z.of_nat (length buf))); [|lia].
  simpl. rewrite Nat2Z.id. reflexivity.
Qed.

Lemma store_negative (buf : list Z) (i v : Z) : i < 0 -> store buf i v = OutOfBounds.
Proof.
  intros H. unfold store. destruct (Z.leb_spec 0 i); [lia|reflexivity].
Qed.

Lemma lookup_in_range (buf : list Z) (n : nat) :
  (n < length buf)%nat -> exists v, buf !! n = Some v.
Proof. intros H. apply lookup_lt_is_Some_2 in H. destruct H as [v Hv]. eauto. Qed.

(** ** The encoder's scan *)

(** From cell [k] on, with a zero known at cell [K]: the loop comes to an
    end at the first zero [k'], has filled the triplets [k .. k'-1] and
    has left the rest of [message] alone. *)
Lemma triple_loop_scan (tmp : list Z) (K : nat) :
  tmp !! K = Some 0 -> Z.of_nat K < 32767 ->
  forall (fuel k : nat) (msg : list Z),
    (k <= K)%nat -> (K - k < fuel)%nat -> (3 * K < length msg)%nat ->
    exists (k' : nat) (msg' : list Z),
      Encode.triple_loop fuel tmp msg (Z.of_nat k) = Ok (Z.of_nat k', msg') /\
      (k <= k' <= K)%nat /\ length msg' = length msg /\
      tmp !! k' = Some 0 /\
      (forall j, (k <= j < k')%nat ->
         exists a, tmp !! j = Some a /\ a <> 0 /\
           msg' !! (3 * j)%nat = Some a /\
           msg' !! (3 * j + 1)%nat = Some a /\
           msg' !! (3 * j + 2)%nat = Some a) /\
      (forall n, (n < 3 * k)%nat \/ (3 * k' <= n)%nat -> msg' !! n = msg !! n).
Proof.
  intros HK Hsmall. induction fuel as [|fuel IH]; intros k msg Hk Hfuel Hmsg.
  - lia.
  - assert (Hlen : (K < length tmp)%nat) by (eapply lookup_lt_Some; eassumption).
    destruct (lookup_in_range tmp k) as [c Hc]; [lia|].
    cbn [Encode.triple_loop].
    rewrite (load_nat tmp _ k c) by auto. cbn [bind].
    destruct (Z.eqb_spec c 0) as [->|Hnz].
    + exists k, msg. repeat split; auto; try lia.
    + assert (k <> K) by (intros ->; congruence).
      rewrite (store_nat _ _ (3 * k) c) by lia. cbn [bind].
      rewrite (store_nat _ _ (3 * k + 1) c) by (rewrite ?length_insert; lia).
      cbn [bind].
      rewrite (store_nat _ _ (3 * k + 2) c) by (rewrite ?length_insert; lia).
      cbn [bind].
      rewrite short_of_id by lia.
      replace (Z.of_nat k + 1) with (Z.of_nat (S k)) by lia.
      match goal with
      | |- context [Encode.triple_loop fuel tmp ?m _] =>
          destruct (IH (S k) m)
            as (k' & msg' & Hrun & Hk' & Hl & Hz & Hfill & Hrest);
          [lia | lia | rewrite !length_insert; exact Hmsg |]
      end.
      exists k', msg'. rewrite Hrun. repeat split; try lia.
      * rewrite Hl, !length_insert. reflexivity.
      * exact Hz.
      * intros j Hj. destruct (decide (j = k)) as [->|Hne].
        -- exists c. repeat split; auto.
           ++ rewrite Hrest by lia.
              rewrite !list_lookup_insert_ne by lia.
              apply list_lookup_insert_eq. lia.
           ++ rewrite Hrest by lia.
              rewrite list_lookup_insert_ne by lia.
              apply list_lookup_insert_eq. rewrite length_insert. lia.
           ++ rewrite Hrest by lia.
              apply list_lookup_insert_eq. rewrite !length_insert. lia.
        -- apply Hfill. lia.
      * intros n Hn. rewrite Hrest by lia.
        rewrite !list_lookup_insert_ne by lia. reflexivity.
Qed.

(** ** The decoder's scan *)

Lemma quot_triplet (k : nat) : Z.quot (Z.of_nat (3 * k)) 3 = Z.of_nat k.
Proof.
  rewrite Z.quot_div_nonneg by lia.
  replace (Z.of_nat (3 * k)) with (Z.of_nat k * 3) by lia.
  apply Z.div_mul. lia.
Qed.

(** From triplet [k] on, with a zero known at the start of triplet [K]:
    the loop comes to an end at the first triplet [k'] that starts with a
    zero, has stored the votes of the triplets [k .. k'-1] and has left
    the rest of [message] alone. *)
Lemma vote_loop_scan (sgn : bool) (tmp : list Z) (K : nat) :
  tmp !! (3 * K)%nat = Some 0 -> Z.of_nat (3 * K) < 32767 ->
  forall (fuel k : nat) (msg : list Z),
    (k <= K)%nat -> (K - k < fuel)%nat -> (K <= length msg)%nat ->
    exists (k' : nat) (msg' : list Z),
      Decode.vote_loop sgn fuel tmp msg (Z.of_nat (3 * k)) =
        Ok (Z.of_nat (3 * k'), msg') /\
      (k <= k' <= K)%nat /\ length msg' = length msg /\
      tmp !! (3 * k')%nat = Some 0 /\
      (forall j, (k <= j < k')%nat ->
         exists a b c, tmp !! (3 * j)%nat = Some a /\ a <> 0 /\
           tmp !! (3 * j + 1)%nat = Some b /\
           tmp !! (3 * j + 2)%nat = Some c /\
           msg' !! j = Some (Decode.vote sgn a b c)) /\
      (forall n, (n < k)%nat \/ (k' <= n)%nat -> msg' !! n = msg !! n).
Proof.
  intros HK Hsmall. induction fuel as [|fuel IH]; intros k msg Hk Hfuel Hmsg.
  - lia.
  - assert (Hlen : (3 * K < length tmp)%nat) by (eapply lookup_lt_Some; eassumption).
    destruct (lookup_in_range tmp (3 * k)) as [a Ha]; [lia|].
    cbn [Decode.vote_loop].
    rewrite (load_nat tmp _ (3 * k) a) by auto. cbn [bind].
    destruct (Z.eqb_spec a 0) as [->|Hnz].
    + exists k, msg. repeat split; auto; try lia.
    + assert (k <> K) by (intros ->; congruence).
      destruct (lookup_in_range tmp (3 * k + 1)) as [b Hb]; [lia|].
      destruct (lookup_in_range tmp (3 * k + 2)) as [c Hc]; [lia|].
      rewrite (load_nat tmp _ (3 * k + 1) b) by (auto; lia). cbn [bind].
      rewrite (load_nat tmp _ (3 * k + 2) c) by (auto; lia). cbn [bind].
      rewrite quot_triplet.
      rewrite (store_nat _ _ k) by lia. cbn [bind].
      rewrite short_of_id by lia.
      replace (Z.of_nat (3 * k) + 3) with (Z.of_nat (3 * S k)) by lia.
      match goal with
      | |- context [Decode.vote_loop sgn fuel tmp ?m _] =>
          destruct (IH (S k) m)
            as (k' & msg' & Hrun & Hk' & Hl & Hz & Hvote & Hrest);
          [lia | lia | rewrite length_insert; exact Hmsg |]
      end.
      exists k', msg'. rewrite Hrun. repeat split; try lia.
      * rewrite Hl, length_insert. reflexivity.
      * exact Hz.
      * intros j Hj. destruct (decide (j = k)) as [->|Hne].
        -- exists a, b, c. repeat split; auto.
           rewrite Hrest by lia. apply list_lookup_insert_eq. lia.
        -- apply Hvote. lia.
      * intros n Hn. rewrite Hrest by lia.
        rewrite list_lookup_insert_ne by lia. reflexivity.
Qed.

(** ** The fuel of the scans is never used up *)

(** Each round starts with a checked read of [temp[i]], and [i] grows, so
    a scan leaves [temp] before it has run for more rounds than [temp] has
    cells. *)
Lemma load_cases (buf : list Z) (i : Z) :
  load buf i = OutOfBounds \/
  exists v, load buf i = Ok v /\ 0 <= i /\ (Z.to_nat i < length buf)%nat.
Proof.
  unfold load. destruct (Z.leb_spec 0 i); [|auto].
  destruct (buf !! Z.to_nat i) as [v|] eqn:Hv; [|auto].
  right. exists v. apply lookup_lt_Some in Hv. auto.
Qed.

Lemma store_cases (buf : list Z) (i v : Z) :
  store buf i v = OutOfBounds \/ exists buf', store buf i v = Ok buf'.
Proof.
  unfold store. destruct ((0 <=? i) && (i <? Z.of_nat (length buf))); eauto.
Qed.

Lemma triple_loop_fuel (tmp : list Z) :
  Z.of_nat (length tmp) < 32767 ->
  forall (fuel : nat) (msg : list Z) (i : Z),
    (length tmp - Z.to_nat i < fuel)%nat ->
    Encode.triple_loop fuel tmp msg i <> OutOfFuel.
Proof.
  intros Hsmall. induction fuel as [|fuel IH]; intros msg i Hfuel.
  - lia.
  - cbn [Encode.triple_loop].
    destruct (load_cases tmp i) as [->|(c & -> & Hi & Hc)]; [discriminate|].
    cbn [bind]. destruct (c =? 0); [discriminate|].
    destruct (store_cases msg (3 * i) c) as [->|[m1 ->]]; [discriminate|].
    cbn [bind].
    destruct (store_cases m1 (3 * i + 1) c) as [->|[m2 ->]]; [discriminate|].
    cbn [bind].
    destruct (store_cases m2 (3 * i + 2) c) as [->|[m3 ->]]; [discriminate|].
    cbn [bind]. rewrite short_of_id by lia. apply IH. lia.
Qed.

Lemma vote_loop_fuel (sgn : bool) (tmp : list Z) :
  Z.of_nat (length tmp) < 32767 ->
  forall (fuel : nat) (msg : list Z) (i : Z),
    (length tmp - Z.to_nat i < fuel)%nat ->
    Decode.vote_loop sgn fuel tmp msg i <> OutOfFuel.
Proof.
  intros Hsmall. induction fuel as [|fuel IH]; intros msg i Hfuel.
  - lia.
  - cbn [Decode.vote_loop].
    destruct (load_cases tmp i) as [->|(a & -> & Hi & Ha)]; [discriminate|].
    cbn [bind]. destruct (a =? 0); [discriminate|].
    destruct (load_cases tmp (i + 1)) as [->|(b & -> & _)]; [discriminate|].
    cbn [bind].
    destruct (load_cases tmp (i + 2)) as [->|(c & -> & _ & Hc)]; [discriminate|].
    cbn [bind].
    destruct (store_cases msg (Z.quot i 3) (Decode.vote sgn a b c))
      as [->|[m1 ->]]; [discriminate|].
    cbn [bind]. rewrite short_of_id by lia. apply IH. lia.
Qed.

(** With the fuel that [dev_write] gives them, on buffers of the declared
    sizes. *)
Lemma scans_never_out_of_fuel (sgn : bool) (enc dec : device) (tmp : list Z) :
  (length tmp = Encode.TEMP_LEN ->
   Encode.triple_loop Encode.fuel tmp (message enc) 0 <> OutOfFuel) /\
  (length tmp = Decode.IN_BUFF_SIZE ->
   Decode.vote_loop sgn Decode.fuel tmp (message dec) 0 <> OutOfFuel).
Proof.
  split; intros H.
  - apply triple_loop_fuel; rewrite H; unfold Encode.fuel, Encode.TEMP_LEN; lia.
  - apply vote_loop_fuel;
      rewrite H; unfold Decode.fuel, Decode.IN_BUFF_SIZE; lia.
Qed.

(** ** The first half of a write: copy in and force the terminator *)

Lemma forced_terminator (dst buffer : list Z) (n : nat) :
  (1 <= n <= length dst)%nat -> (n <= length buffer)%nat ->
  let tmp := <[(n - 1)%nat := 0]> (take n buffer ++ drop n dst) in
  length tmp = length dst /\
  tmp !! (n - 1)%nat = Some 0 /\
  (forall m, (m < n - 1)%nat -> tmp !! m = buffer !! m) /\
  (forall m, (n <= m)%nat -> tmp !! m = dst !! m).
Proof.
  intros Hn Hb tmp.
  assert (Hl : length (take n buffer ++ drop n dst) = length dst).
  { rewrite length_app, length_take, length_drop. lia. }
  repeat split.
  - unfold tmp. rewrite length_insert. exact Hl.
  - unfold tmp. apply list_lookup_insert_eq. lia.
  - intros m Hm. unfold tmp. rewrite list_lookup_insert_ne by lia.
    rewrite lookup_app_l by (rewrite length_take; lia).
    apply lookup_take_lt. lia.
  - intros m Hm. unfold tmp. rewrite list_lookup_insert_ne by lia.
    rewrite lookup_app_r by (rewrite length_take; lia).
    rewrite lookup_drop, length_take. f_equal. lia.
Qed.

Lemma copy_and_terminate (dst buffer : list Z) (len : Z) (n : nat) :
  len = Z.of_nat n -> (1 <= n <= length dst)%nat -> (n <= length buffer)%nat ->
  (let* tmp := copy_from_user dst buffer len in
   let* tmp := store tmp (len - 1) 0 in
   Ok (len, tmp)) =
  Ok (len, <[(n - 1)%nat := 0]> (take n buffer ++ drop n dst)).
Proof.
  intros -> Hn Hb. unfold copy_from_user.
  destruct (Z.leb_spec 0 (Z.of_nat n)); [|lia].
  destruct (Z.leb_spec (Z.of_nat n) (Z.of_nat (length dst))); [|lia].
  cbn [andb bind]. rewrite Nat2Z.id.
  rewrite (store_nat _ _ (n - 1)); [reflexivity|lia|].
  rewrite length_app, length_take, length_drop. lia.
Qed.

Lemma enc_prepare (st : device) (buffer : list Z) :
  length (temp st) = Encode.TEMP_LEN -> (1 <= length buffer)%nat ->
  let n := Nat.min (length buffer) 256 in
  Encode.prepare st buffer =
  Ok (Z.of_nat n, <[(n - 1)%nat := 0]> (take n buffer ++ drop n (temp st))).
Proof.
  intros Ht Hb n. unfold Encode.prepare, Encode.TEMP_LEN in *.
  assert (Hlen : (if 256 <? Z.of_nat (length buffer) then 256
                  else Z.of_nat (length buffer)) = Z.of_nat n).
  { destruct (Z.ltb_spec 256 (Z.of_nat (length buffer))); lia. }
  rewrite Hlen. apply copy_and_terminate; lia.
Qed.

Lemma dec_prepare (st : device) (buffer : list Z) :
  length (temp st) = Decode.IN_BUFF_SIZE -> (1 <= length buffer)%nat ->
  let n := Nat.min (length buffer) 769 in
  Decode.prepare st buffer =
  Ok (Z.of_nat n, <[(n - 1)%nat := 0]> (take n buffer ++ drop n (temp st))).
Proof.
  intros Ht Hb n. unfold Decode.prepare, Decode.IN_BUFF_SIZE in *.
  assert (Hlen : (if Z.of_nat 769 <? Z.of_nat (length buffer) then Z.of_nat 769
                  else Z.of_nat (length buffer)) = Z.of_nat n).
  { destruct (Z.ltb_spec (Z.of_nat 769) (Z.of_nat (length buffer))); lia. }
  rewrite Hlen. apply copy_and_terminate; lia.
Qed.

(** A write of zero bytes stores the terminator at index [-1]. *)
Lemma copy_and_terminate_empty (dst buffer : list Z) :
  (let* tmp := copy_from_user dst buffer 0 in
   let* tmp := store tmp (0 - 1) 0 in
   Ok (0, tmp)) = OutOfBounds.
Proof.
  unfold copy_from_user.
  destruct (Z.leb_spec 0 (Z.of_nat (length dst))); [|lia].
  cbn [Z.leb Z.compare andb bind]. rewrite store_negative by lia. reflexivity.
Qed.

Lemma enc_prepare_empty (st : device) : Encode.prepare st [] = OutOfBounds.
Proof. apply copy_and_terminate_empty. Qed.

Lemma dec_prepare_empty (st : device) : Decode.prepare st [] = OutOfBounds.
Proof. apply copy_and_terminate_empty. Qed.

(** ** A whole write to the encoder *)

Lemma enc_write_scan (st : device) (buffer : list Z) :
  enc_sized st -> (1 <= length buffer)%nat ->
  let n := Nat.min (length buffer) 256 in
  let tmp := <[(n - 1)%nat := 0]> (take n buffer ++ drop n (temp st)) in
  exists (k : nat) (msg' : list Z),
    (k <= n - 1)%nat /\ tmp !! k = Some 0 /\
    (forall j, (j < k)%nat ->
       exists a, tmp !! j = Some a /\ a <> 0 /\
         msg' !! (3 * j)%nat = Some a /\
         msg' !! (3 * j + 1)%nat = Some a /\
         msg' !! (3 * j + 2)%nat = Some a) /\
    length msg' = Encode.MESSAGE_LEN /\
    (forall m, (3 * k <= m)%nat -> msg' !! m = message st !! m) /\
    Encode.dev_write st buffer =
    Ok {| state := {| message := <[(3 * k)%nat := 0]> msg'; temp := tmp;
                      messageSize := Z.of_nat (3 * k + 1);
                      numberOpens := numberOpens st |};
          ret := Z.of_nat n; sent := [] |}.
Proof.
  intros [Hm Ht] Hb n tmp.
  unfold Encode.MESSAGE_LEN, Encode.TEMP_LEN in *.
  destruct (forced_terminator (temp st) buffer n) as (Hl & Hz & _ & _);
    [lia | lia |]. fold tmp in Hl, Hz.
  destruct (triple_loop_scan tmp (n - 1) Hz ltac:(lia) Encode.fuel 0 (message st))
    as (k & msg' & Hrun & Hk & Hlen & Hzero & Hfill & Hrest).
  { lia. } { unfold Encode.fuel, Encode.TEMP_LEN. lia. } { lia. }
  exists k, msg'. repeat split.
  - lia.
  - exact Hzero.
  - intros j Hj. apply Hfill. lia.
  - lia.
  - intros m Hmk. apply Hrest. lia.
  - unfold Encode.dev_write. rewrite enc_prepare by (auto; lia).
    fold n. fold tmp. cbn [bind]. change (Z.of_nat 0) with 0 in Hrun.
    rewrite Hrun. cbn [bind].
    rewrite (store_nat _ _ (3 * k)) by lia. cbn [bind].
    rewrite short_of_id by lia.
    do 3 f_equal. lia.
Qed.

Lemma read_all (msg : list Z) (size : Z) (writable : nat) :
  0 <= size <= Z.of_nat (length msg) -> (Z.to_nat size <= writable)%nat ->
  copy_to_user writable msg size = Ok (take (Z.to_nat size) msg, 0).
Proof.
  intros Hs Hw. unfold copy_to_user.
  destruct (Z.leb_spec 0 size); [|lia].
  destruct (Z.leb_spec size (Z.of_nat (length msg))); [|lia].
  cbn [andb]. rewrite Nat.min_l by lia. do 2 f_equal. lia.
Qed.

Lemma enc_read_all (st : device) (writable : nat) :
  0 <= messageSize st <= Z.of_nat (length (message st)) ->
  (Z.to_nat (messageSize st) <= writable)%nat ->
  Encode.dev_read st writable =
  Ok {| state := {| message := message st; temp := temp st;
                    messageSize := 0; numberOpens := numberOpens st |};
        ret := messageSize st;
        sent := take (Z.to_nat (messageSize st)) (message st) |}.
Proof.
  intros Hs Hw. unfold Encode.dev_read.
  rewrite read_all by assumption. reflexivity.
Qed.

Lemma dec_read_all (st : device) (writable : nat) :
  0 <= messageSize st <= Z.of_nat (length (message st)) ->
  (Z.to_nat (messageSize st) <= writable)%nat ->
  Decode.dev_read st writable =
  Ok {| state := {| message := message st; temp := temp st;
                    messageSize := 0; numberOpens := numberOpens st |};
        ret := messageSize st;
        sent := take (Z.to_nat (messageSize st)) (message st) |}.
Proof.
  intros Hs Hw. unfold Decode.dev_read.
  rewrite read_all by assumption. reflexivity.
Qed.

(** ** The reference functions *)

Lemma length_triplicate (l : list Z) : length (triplicate l) = (3 * length l)%nat.
Proof. induction l as [|b l IH]; simpl; lia. Qed.

Lemma triplicate_lookup (l : list Z) (j : nat) :
  triplicate l !! (3 * j)%nat = l !! j /\
  triplicate l !! (3 * j + 1)%nat = l !! j /\
  triplicate l !! (3 * j + 2)%nat = l !! j.
Proof.
  revert j. induction l as [|b l IH]; intros j.
  - simpl. rewrite !lookup_nil. auto.
  - destruct j as [|j].
    + simpl. auto.
    + replace (3 * S j)%nat with (S (S (S (3 * j)))) by lia.
      simpl triplicate. cbn [Nat.add]. cbn [lookup list_lookup]. apply IH.
Qed.

(** A list that holds every byte of [p] three times in a row, and nothing
    else, is [triplicate p]. *)
Lemma triplicate_characterised (p l : list Z) :
  length l = (3 * length p)%nat ->
  (forall j a, p !! j = Some a ->
     l !! (3 * j)%nat = Some a /\ l !! (3 * j + 1)%nat = Some a /\
     l !! (3 * j + 2)%nat = Some a) ->
  l = triplicate p.
Proof.
  intros Hl H. apply list_eq_same_length with (n := length l); auto.
  - rewrite length_triplicate. symmetry. exact Hl.
  - intros i x y Hi Hx Hy.
    assert (Hdiv : exists j r, (i = 3 * j + r /\ r < 3)%nat).
    { exists (i / 3)%nat, (i mod 3)%nat. split.
      - apply Nat.div_mod_eq.
      - apply Nat.mod_upper_bound. lia. }
    destruct Hdiv as (j & r & -> & Hr).
    destruct (lookup_in_range p j) as [a Ha]; [lia|].
    destruct (H j a Ha) as (H0 & H1 & H2).
    destruct (triplicate_lookup p j) as (T0 & T1 & T2).
    destruct r as [|[|[|r]]]; [| | |lia].
    + rewrite Nat.add_0_r in *. congruence.
    + congruence.
    + congruence.
Qed.

Lemma upto_nul_take (l : list Z) (k m : nat) :
  l !! k = Some 0 ->
  (forall j, (j < k)%nat -> exists a, l !! j = Some a /\ a <> 0) ->
  (k <= m)%nat -> upto_nul (take m l) = take k l.
Proof.
  revert k m. induction l as [|b l IH]; intros k m Hk Hnz Hm.
  - rewrite lookup_nil in Hk. discriminate.
  - destruct k as [|k].
    + simpl in Hk. injection Hk as ->. destruct m; reflexivity.
    + destruct m as [|m]; [lia|].
      destruct (Hnz 0%nat) as (a & Ha & Hane); [lia|].
      simpl in Ha. injection Ha as ->.
      simpl. destruct (Z.eqb_spec a 0); [contradiction|].
      f_equal. apply IH; [exact Hk| |lia].
      intros j Hj. apply (Hnz (S j)). lia.
Qed.

Lemma upto_nul_nonzero (l : list Z) :
  Forall (fun b => b <> 0) l -> upto_nul l = l.
Proof.
  induction 1 as [|b l Hb _ IH]; simpl; [reflexivity|].
  destruct (Z.eqb_spec b 0); [contradiction|]. f_equal. exact IH.
Qed.

Lemma take_ext (l1 l2 : list Z) (n : nat) :
  (forall m, (m < n)%nat -> l1 !! m = l2 !! m) -> take n l1 = take n l2.
Proof.
  intros H. apply list_eq. intros i.
  destruct (decide (i < n)%nat).
  - rewrite !lookup_take_lt by lia. apply H. lia.
  - rewrite !lookup_take_ge by lia. reflexivity.
Qed.

Lemma take_S_insert (l : list Z) (n : nat) (x : Z) :
  (n < length l)%nat -> take (S n) (<[n := x]> l) = take n l ++ [x].
Proof.
  intros H. rewrite (take_S_r _ _ x) by (apply list_lookup_insert_eq; lia).
  rewrite take_insert_ge by lia. reflexivity.
Qed.

(** ** What the encoder emits *)

Lemma enc_encoded (st : device) (buffer : list Z) :
  enc_sized st -> (1 <= length buffer <= 256)%nat ->
  let p := upto_nul (all_but_last buffer) in
  exists r,
    Encode.dev_write st buffer = Ok r /\
    ret r = Z.of_nat (length buffer) /\
    enc_sized (state r) /\
    (length p <= length buffer - 1)%nat /\
    messageSize (state r) = Z.of_nat (3 * length p + 1) /\
    take (3 * length p + 1) (message (state r)) = triplicate p ++ [0] /\
    temp (state r) !! (length buffer - 1)%nat = Some 0.
Proof.
  intros Hs Hb p.
  destruct (enc_write_scan st buffer Hs ltac:(lia))
    as (k & msg' & Hk & Hzero & Hfill & Hlen & _ & Hrun).
  destruct Hs as [Hm Ht].
  unfold Encode.MESSAGE_LEN, Encode.TEMP_LEN in *.
  rewrite Nat.min_l in * by lia.
  set (n := length buffer) in *.
  set (tmp := <[(n - 1)%nat := 0]> (take n buffer ++ drop n (temp st))) in *.
  destruct (forced_terminator (temp st) buffer n) as (Hl & Hz & Hcopy & _);
    [lia | lia |]. fold tmp in Hl, Hz, Hcopy.
  assert (Hp : p = take k tmp).
  { unfold p, all_but_last. fold n.
    rewrite <- (take_ext tmp buffer (n - 1)) by exact Hcopy.
    apply upto_nul_take; [exact Hzero| |lia].
    intros j Hj. destruct (Hfill j Hj) as (a & Ha & Hne & _). eauto. }
  assert (Hpl : length p = k) by (rewrite Hp, length_take; lia).
  eexists. split; [exact Hrun|]. unfold enc_sized.
  cbn [state ret message temp messageSize]. rewrite Hpl. repeat split.
  - unfold Encode.MESSAGE_LEN. rewrite length_insert. lia.
  - unfold Encode.TEMP_LEN. lia.
  - lia.
  - replace (3 * k + 1)%nat with (S (3 * k)) by lia.
    rewrite take_S_insert by lia. f_equal.
    apply triplicate_characterised.
    + rewrite length_take, Hpl. lia.
    + intros j a Hj.
      assert (Hjk : (j < k)%nat) by (rewrite <- Hpl; eapply lookup_lt_Some; eauto).
      rewrite Hp, lookup_take_lt in Hj by lia.
      destruct (Hfill j Hjk) as (a' & Ha' & _ & F0 & F1 & F2).
      assert (a' = a) by congruence. subst a'.
      rewrite !lookup_take_lt by lia. auto.
  - exact Hz.
Qed.

(** ** A whole write to the decoder *)

Lemma dec_write_scan (sgn : bool) (st : device) (buffer : list Z) (K : nat) :
  dec_sized st -> (1 <= length buffer)%nat ->
  let n := Nat.min (length buffer) 769 in
  let tmp := <[(n - 1)%nat := 0]> (take n buffer ++ drop n (temp st)) in
  tmp !! (3 * K)%nat = Some 0 ->
  exists (k : nat) (msg' : list Z),
    (k <= K)%nat /\ tmp !! (3 * k)%nat = Some 0 /\
    (forall j, (j < k)%nat ->
       exists a b c, tmp !! (3 * j)%nat = Some a /\ a <> 0 /\
         tmp !! (3 * j + 1)%nat = Some b /\
         tmp !! (3 * j + 2)%nat = Some c /\
         msg' !! j = Some (Decode.vote sgn a b c)) /\
    length msg' = Decode.MESSAGE_LEN /\
    (forall m, (k <= m)%nat -> msg' !! m = message st !! m) /\
    Decode.dev_write sgn st buffer =
    Ok {| state := {| message := msg'; temp := tmp;
                      messageSize := Z.of_nat k;
                      numberOpens := numberOpens st |};
          ret := Z.of_nat n; sent := [] |}.
Proof.
  intros [Hm Ht] Hb n tmp HK.
  unfold Decode.MESSAGE_LEN, Decode.IN_BUFF_SIZE in *.
  destruct (forced_terminator (temp st) buffer n) as (Hl & _); [lia | lia |].
  fold tmp in Hl.
  assert (HKlen : (3 * K < length tmp)%nat) by (eapply lookup_lt_Some; eauto).
  destruct (vote_loop_scan sgn tmp K HK ltac:(lia) Decode.fuel 0 (message st))
    as (k & msg' & Hrun & Hk & Hlen & Hzero & Hvote & Hrest).
  { lia. } { unfold Decode.fuel, Decode.IN_BUFF_SIZE. lia. } { lia. }
  exists k, msg'. repeat split.
  - lia.
  - exact Hzero.
  - intros j Hj. apply Hvote. lia.
  - lia.
  - intros m Hmk. apply Hrest. lia.
  - unfold Decode.dev_write. rewrite dec_prepare by (auto; lia).
    fold n. fold tmp. cbn [bind]. change (Z.of_nat (3 * 0)) with 0 in Hrun.
    rewrite Hrun. cbn [bind].
    rewrite quot_triplet, short_of_id by lia. reflexivity.
Qed.

(** ** What the decoder recovers *)

(** A received sequence of [n] triplets and a final byte, where every
    triplet starts with a nonzero byte and votes for the byte of [y] at
    its place, decodes to [y]. *)
Lemma dec_decoded (sgn : bool) (st : device) (data y : list Z) :
  dec_sized st -> length data = (3 * length y + 1)%nat ->
  (length y <= 256)%nat ->
  (forall j v, y !! j = Some v ->
     exists a b c, data !! (3 * j)%nat = Some a /\ a <> 0 /\
       data !! (3 * j + 1)%nat = Some b /\
       data !! (3 * j + 2)%nat = Some c /\
       Decode.vote sgn a b c = v) ->
  exists r,
    Decode.dev_write sgn st data = Ok r /\
    dec_sized (state r) /\
    messageSize (state r) = Z.of_nat (length y) /\
    take (length y) (message (state r)) = y.
Proof.
  intros Hs Hd Hy Hvotes. set (n := length y) in *.
  pose proof Hs as [Hm Ht].
  unfold Decode.MESSAGE_LEN, Decode.IN_BUFF_SIZE in *.
  destruct (forced_terminator (temp st) data (3 * n + 1)) as (Hl & Hz & Hcopy & _);
    [lia | lia |].
  destruct (dec_write_scan sgn st data n Hs ltac:(lia))
    as (k & msg' & Hk & Hzero & Hvote & Hlen & _ & Hrun).
  { rewrite Nat.min_l by lia. rewrite Hd, <- Hz. f_equal. lia. }
  rewrite Nat.min_l in Hrun, Hzero, Hvote by lia. rewrite Hd in Hrun, Hzero, Hvote.
  set (tmp := <[(3 * n + 1 - 1)%nat := 0]>
                (take (3 * n + 1) data ++ drop (3 * n + 1) (temp st))) in *.
  replace (3 * n + 1 - 1)%nat with (3 * n)%nat in Hcopy by lia.
  assert (k = n) as ->.
  { destruct (decide (k = n)) as [|Hne]; [assumption|exfalso].
    destruct (lookup_in_range y k) as [v Hv]; [fold n; lia|].
    destruct (Hvotes k v Hv) as (a & b & c & Ha & Hane & _).
    rewrite Hcopy in Hzero by lia. congruence. }
  eexists. split; [exact Hrun|]. unfold dec_sized.
  cbn [state message temp messageSize]. repeat split.
  - exact Hlen.
  - unfold Decode.IN_BUFF_SIZE. lia.
  - apply list_eq_same_length with (n := n).
    + reflexivity.
    + rewrite length_take. unfold Decode.MESSAGE_LEN in Hlen. lia.
    + intros i x v Hi Hx Hv. rewrite lookup_take_lt in Hx by lia.
      destruct (Hvotes i v Hv) as (a & b & c & Ha & _ & Hb & Hc & Hvt).
      destruct (Hvote i Hi) as (a' & b' & c' & Ha' & _ & Hb' & Hc' & Hx').
      rewrite Hcopy in Ha', Hb', Hc' by lia. congruence.
Qed.

(** ** From the encoder's writer to the decoder's reader *)

Lemma upto_nul_lookup (l : list Z) (j : nat) (v : Z) :
  upto_nul l !! j = Some v -> l !! j = Some v /\ v <> 0.
Proof.
  revert j. induction l as [|b l IH]; intros j H.
  - simpl in H. rewrite lookup_nil in H. discriminate.
  - simpl in H. destruct (Z.eqb_spec b 0) as [|Hb].
    + rewrite lookup_nil in H. discriminate.
    + destruct j as [|j]; simpl in *.
      * injection H as ->. auto.
      * apply IH. exact H.
Qed.

Lemma payload_lookup (x : list Z) (j : nat) (v : Z) :
  Forall is_byte x -> upto_nul (all_but_last x) !! j = Some v ->
  is_byte v /\ v <> 0.
Proof.
  intros Hx H. apply upto_nul_lookup in H as [H Hv]. split; [|exact Hv].
  unfold all_but_last in H. apply lookup_take_Some in H as [H _].
  rewrite Forall_lookup in Hx. eapply Hx. exact H.
Qed.

Lemma transmit_recovers (sgn : bool) (enc dec : device)
    (channel : list Z -> list Z) (x : list Z) :
  enc_sized enc -> dec_sized dec -> (1 <= length x <= 256)%nat ->
  let p := upto_nul (all_but_last x) in
  let data := channel (triplicate p ++ [0]) in
  length data = (3 * length p + 1)%nat ->
  (forall j v, p !! j = Some v ->
     exists a b c, data !! (3 * j)%nat = Some a /\ a <> 0 /\
       data !! (3 * j + 1)%nat = Some b /\
       data !! (3 * j + 2)%nat = Some c /\
       Decode.vote sgn a b c = v) ->
  transmit sgn enc dec channel x = Ok p.
Proof.
  intros He Hd Hx p data Hlen Hvotes.
  destruct (enc_encoded enc x He Hx)
    as (w & Hw & _ & [Hwm _] & Hp & Hsize & Hsent & _).
  fold p in Hp, Hsize, Hsent.
  unfold transmit. rewrite Hw. cbn [bind].
  unfold Encode.MESSAGE_LEN in *.
  rewrite enc_read_all by (rewrite Hsize, ?Hwm; lia). cbn [bind sent state].
  rewrite Hsize, Nat2Z.id, Hsent. fold data.
  destruct (dec_decoded sgn dec data p Hd Hlen ltac:(lia) Hvotes)
    as (w' & Hw' & [Hwm' _] & Hsize' & Hsent').
  rewrite Hw'. cbn [bind].
  unfold Decode.MESSAGE_LEN in *.
  rewrite dec_read_all by (rewrite Hsize', ?Hwm'; lia). cbn [bind sent].
  rewrite Hsize', Nat2Z.id, Hsent'. reflexivity.
Qed.

Lemma sent_lookup (p : list Z) (j : nat) :
  (j < length p)%nat ->
  (triplicate p ++ [0]) !! (3 * j)%nat = p !! j /\
  (triplicate p ++ [0]) !! (3 * j + 1)%nat = p !! j /\
  (triplicate p ++ [0]) !! (3 * j + 2)%nat = p !! j.
Proof.
  intros Hj. rewrite !lookup_app_l by (rewrite length_triplicate; lia).
  apply triplicate_lookup.
Qed.

Lemma flip_bits_byte (mask b : Z) : is_byte mask -> is_byte b -> is_byte (flip_bits mask b).
Proof.
  intros Hm Hb. unfold flip_bits.
  assert (H : Z.lxor b mask = char_of_int (Z.lxor b mask)).
  { apply Z.bits_inj'. intros k Hk. rewrite testbit_char_of_int.
    destruct (Z.leb_spec 0 k); [|lia].
    destruct (Z.ltb_spec k 8); simpl; [reflexivity|].
    rewrite Z.lxor_spec, !testbit_byte_high by (assumption || lia).
    reflexivity. }
  rewrite H. unfold char_of_int, is_byte. apply Z.mod_pos_bound. lia.
Qed.

Lemma all_but_last_nonzero (x : list Z) :
  Forall (fun b => b <> 0) x -> upto_nul (all_but_last x) = all_but_last x.
Proof.
  intros H. apply upto_nul_nonzero. unfold all_but_last.
  apply Forall_take. exact H.
Qed.

(** ** The claims *)

(** C1 (as the code has it).  For every byte sequence [x] of 1 to 256
    bytes with no zero byte, writing [x] to the encoder, reading the
    encoder, writing what was read to the decoder and reading the decoder
    yields [x] without its final byte: the encoder overwrites the final
    byte of every write with the terminator before it triplicates. *)
Theorem round_trip_drops_final_byte (sgn : bool) (enc dec : device) (x : list Z) :
  enc_sized enc -> dec_sized dec ->
  (1 <= length x <= 256)%nat ->
  Forall is_byte x -> Forall (fun b => b <> 0) x ->
  transmit sgn enc dec clean x = Ok (all_but_last x) /\
  all_but_last x <> x.
Proof.
  intros He Hd Hx Hbytes Hnz. split.
  - rewrite <- (all_but_last_nonzero x Hnz).
    apply transmit_recovers; try assumption.
    + unfold clean. rewrite length_app, length_triplicate. simpl. lia.
    + intros j v Hv. destruct (payload_lookup x j v Hbytes Hv) as [Hbv Hnv].
      destruct (sent_lookup (upto_nul (all_but_last x)) j) as (S0 & S1 & S2).
      { eapply lookup_lt_Some. exact Hv. }
      exists v, v, v. unfold clean. rewrite S0, S1, S2.
      repeat split; try assumption.
      apply (vote_outvoted sgn v v Hbv Hbv).
  - intros Heq. apply (f_equal length) in Heq.
    unfold all_but_last in Heq. rewrite length_take in Heq. lia.
Qed.

Lemma round_trip_drops_final_byte_witness :
  transmit false Encode.init Decode.init clean [65; 66] = Ok [65] /\
  [65] <> [65; 66].
Proof.
  apply (round_trip_drops_final_byte false Encode.init Decode.init [65; 66]).
  - split; reflexivity.
  - split; reflexivity.
  - simpl. lia.
  - repeat constructor; unfold is_byte; lia.
  - repeat constructor; lia.
Defined.

(** C1 as stated fails: the two bytes "AB" come back as "A". *)
Lemma round_trip_counterexample :
  transmit false Encode.init Decode.init clean [65; 66] = Ok [65] /\
  transmit false Encode.init Decode.init clean [65; 66] <> Ok [65; 66].
Proof.
  assert (H : transmit false Encode.init Decode.init clean [65; 66] = Ok [65])
    by (vm_compute; reflexivity).
  split; [exact H|]. rewrite H. discriminate.
Qed.

(** C3 (as the code has it).  For every byte sequence [x] of 1 to 256
    bytes with no zero byte, every triplet [t] of the encoded form and
    every copy [c] of that triplet, flipping any set of bits [mask] in
    that one copy (leaving a nonzero byte when the copy is the first of
    its triplet) still makes the decoder recover what it recovers without
    noise: [x] without its final byte. *)
Theorem single_copy_corruption_tolerated
    (sgn : bool) (enc dec : device) (x : list Z) (t c : nat) (mask : Z) :
  enc_sized enc -> dec_sized dec ->
  (1 <= length x <= 256)%nat ->
  Forall is_byte x -> Forall (fun b => b <> 0) x ->
  (t < length x - 1)%nat -> (c < 3)%nat -> is_byte mask ->
  (forall b, x !! t = Some b -> c = 0%nat -> flip_bits mask b <> 0) ->
  transmit sgn enc dec (corrupt t c mask) x = Ok (all_but_last x).
Proof.
  intros He Hd Hx Hbytes Hnz Ht Hc Hmask Hstart.
  rewrite <- (all_but_last_nonzero x Hnz).
  apply transmit_recovers; try assumption.
  - unfold corrupt. rewrite length_alter, length_app, length_triplicate.
    simpl. lia.
  - intros j v Hv. destruct (payload_lookup x j v Hbytes Hv) as [Hbv Hnv].
    destruct (sent_lookup (upto_nul (all_but_last x)) j) as (S0 & S1 & S2).
    { eapply lookup_lt_Some. exact Hv. }
    rewrite Hv in S0, S1, S2.
    pose proof (flip_bits_byte mask v Hmask Hbv) as Hflip.
    destruct (vote_outvoted sgn v (flip_bits mask v) Hbv Hflip) as (V0 & V1 & V2).
    destruct (vote_outvoted sgn v v Hbv Hbv) as (V & _).
    unfold corrupt. destruct (decide (j = t)) as [->|Hne].
    + assert (Hxt : x !! t = Some v).
      { rewrite all_but_last_nonzero in Hv by assumption.
        unfold all_but_last in Hv. apply lookup_take_Some in Hv as [Hv _].
        exact Hv. }
      destruct c as [|[|[|c]]]; [| | |lia].
      * exists (flip_bits mask v), v, v. rewrite Nat.add_0_r.
        rewrite list_lookup_alter_eq, !list_lookup_alter_ne by lia.
        rewrite S0, S1, S2. repeat split; auto.
      * exists v, (flip_bits mask v), v.
        rewrite list_lookup_alter_eq, !list_lookup_alter_ne by lia.
        rewrite S0, S1, S2. repeat split; auto.
      * exists v, v, (flip_bits mask v).
        rewrite list_lookup_alter_eq, !list_lookup_alter_ne by lia.
        rewrite S0, S1, S2. repeat split; auto.
    + exists v, v, v. rewrite !list_lookup_alter_ne by lia.
      rewrite S0, S1, S2. repeat split; auto.
Qed.

Lemma single_copy_corruption_tolerated_witness :
  transmit false Encode.init Decode.init (corrupt 0 0 1) [65; 66] = Ok [65].
Proof.
  apply (single_copy_corruption_tolerated
           false Encode.init Decode.init [65; 66] 0 0 1).
  - split; reflexivity.
  - split; reflexivity.
  - simpl. lia.
  - repeat constructor; unfold is_byte; lia.
  - repeat constructor; lia.
  - simpl. lia.
  - lia.
  - unfold is_byte. lia.
  - intros b Hb _. injection Hb as <-. discriminate.
Defined.

(** C3 as stated fails: with bit 0 of the second copy of the first
    triplet of "AB" flipped, the decoder returns "A", not "AB". *)
Lemma single_copy_corruption_counterexample :
  transmit false Encode.init Decode.init (corrupt 0 1 1) [65; 66] = Ok [65] /\
  transmit false Encode.init Decode.init (corrupt 0 1 1) [65; 66] <> Ok [65; 66].
Proof.
  assert (H : transmit false Encode.init Decode.init (corrupt 0 1 1) [65; 66]
              = Ok [65]) by (vm_compute; reflexivity).
  split; [exact H|]. rewrite H. discriminate.
Qed.

(** ** The terminator in the last cell of [temp] *)

Lemma terminated_last (dst buffer : list Z) (n : nat) :
  (1 <= n <= length dst)%nat -> (n <= length buffer)%nat ->
  dst !! (length dst - 1)%nat = Some 0 ->
  <[(n - 1)%nat := 0]> (take n buffer ++ drop n dst) !! (length dst - 1)%nat
  = Some 0.
Proof.
  intros Hn Hb Hlast.
  destruct (forced_terminator dst buffer n Hn Hb) as (_ & Hz & _ & Hkeep).
  destruct (decide (n = length dst)) as [->|Hne].
  - exact Hz.
  - rewrite Hkeep by lia. exact Hlast.
Qed.

Lemma terminated_bytes (dst buffer : list Z) (n : nat) :
  Forall is_byte dst -> Forall is_byte buffer ->
  Forall is_byte (<[(n - 1)%nat := 0]> (take n buffer ++ drop n dst)).
Proof.
  intros Hd Hb. apply Forall_insert.
  - apply Forall_app. split; [apply Forall_take|apply Forall_drop]; assumption.
  - unfold is_byte. lia.
Qed.

(** C2.  After a write to the decoder, every byte of the result is the
    vote of the triplet of [temp] at its place, and for every triplet of
    bytes the vote the code computes (the four-term disjunction) is the
    three-term form [(a & b) | (b & c) | (a & c)], whose bit at every
    position is the majority of the three bits at that position. *)
Theorem vote_is_bitwise_majority (sgn : bool) (st : device) (buffer : list Z) :
  dec_inv st -> (1 <= length buffer)%nat ->
  Forall is_byte (temp st) -> Forall is_byte buffer ->
  exists r,
    Decode.dev_write sgn st buffer = Ok r /\
    forall j, (Z.of_nat j < messageSize (state r)) ->
      exists a b c,
        temp (state r) !! (3 * j)%nat = Some a /\
        temp (state r) !! (3 * j + 1)%nat = Some b /\
        temp (state r) !! (3 * j + 2)%nat = Some c /\
        message (state r) !! j = Some (Decode.vote sgn a b c) /\
        Decode.vote sgn a b c = maj3 a b c /\
        forall k, Z.testbit (Decode.vote sgn a b c) k =
                  majority (Z.testbit a k) (Z.testbit b k) (Z.testbit c k).
Proof.
  intros (Hs & Hlast & _) Hb Htemp Hbuf.
  pose proof Hs as [Hm Ht]. unfold Decode.IN_BUFF_SIZE in Ht.
  destruct (dec_write_scan sgn st buffer 256 Hs Hb)
    as (k & msg' & Hk & _ & Hvote & _ & _ & Hrun).
  { change (3 * 256)%nat with (769 - 1)%nat. rewrite <- Ht.
    apply terminated_last; rewrite ?Ht; try lia. exact Hlast. }
  eexists. split; [exact Hrun|]. cbn [state message temp messageSize].
  intros j Hj. destruct (Hvote j ltac:(lia)) as (a & b & c & Ha & _ & Hb' & Hc & Hr).
  pose proof (terminated_bytes (temp st) buffer
                (Nat.min (length buffer) 769) Htemp Hbuf) as Hbytes.
  rewrite Forall_lookup in Hbytes.
  pose proof (Hbytes _ _ Ha). pose proof (Hbytes _ _ Hb').
  pose proof (Hbytes _ _ Hc).
  exists a, b, c. repeat split; auto.
  - apply vote_maj3; assumption.
  - intros k'. apply vote_bits; assumption.
Qed.

Lemma vote_is_bitwise_majority_witness :
  exists r,
    Decode.dev_write false Decode.init [65; 65; 64; 66; 66; 66; 0] = Ok r /\
    forall j, (Z.of_nat j < messageSize (state r)) ->
      exists a b c,
        temp (state r) !! (3 * j)%nat = Some a /\
        temp (state r) !! (3 * j + 1)%nat = Some b /\
        temp (state r) !! (3 * j + 2)%nat = Some c /\
        message (state r) !! j = Some (Decode.vote false a b c) /\
        Decode.vote false a b c = maj3 a b c /\
        forall k, Z.testbit (Decode.vote false a b c) k =
                  majority (Z.testbit a k) (Z.testbit b k) (Z.testbit c k).
Proof.
  apply (vote_is_bitwise_majority false Decode.init [65; 65; 64; 66; 66; 66; 0]).
  - repeat split; try reflexivity; simpl; lia.
  - simpl. lia.
  - apply Forall_replicate. unfold is_byte. lia.
  - repeat constructor; unfold is_byte; lia.
Defined.

(** C8.  A write of [L] bytes to the encoder, [1 <= L <= 256], puts a zero
    at index [L-1] of [temp] before the scan; the encoder emits the
    triplets of the bytes that come before the first zero among the first
    [L-1] input bytes, then the terminator; so the final input byte is
    never encoded, and two writes that differ in their final byte only
    emit the same bytes. *)
Theorem final_byte_never_encoded (st : device) (buffer : list Z) :
  enc_sized st -> (1 <= length buffer <= 256)%nat ->
  let p := upto_nul (all_but_last buffer) in
  exists r,
    Encode.dev_write st buffer = Ok r /\
    temp (state r) !! (length buffer - 1)%nat = Some 0 /\
    (length p <= length buffer - 1)%nat /\
    messageSize (state r) = Z.of_nat (3 * length p + 1) /\
    take (3 * length p + 1) (message (state r)) = triplicate p ++ [0] /\
    forall buffer',
      length buffer' = length buffer ->
      all_but_last buffer' = all_but_last buffer ->
      exists r',
        Encode.dev_write st buffer' = Ok r' /\
        messageSize (state r') = messageSize (state r) /\
        take (3 * length p + 1) (message (state r')) =
        take (3 * length p + 1) (message (state r)).
Proof.
  intros Hs Hb p.
  destruct (enc_encoded st buffer Hs Hb)
    as (r & Hr & _ & _ & Hp & Hsize & Hsent & Hz).
  fold p in Hp, Hsize, Hsent.
  exists r. repeat split; try assumption.
  intros buffer' Hlen Heq.
  destruct (enc_encoded st buffer' Hs ltac:(lia))
    as (r' & Hr' & _ & _ & _ & Hsize' & Hsent' & _).
  rewrite Heq in Hsize', Hsent'. fold p in Hsize', Hsent'.
  exists r'. repeat split; congruence.
Qed.

Lemma final_byte_never_encoded_witness :
  exists r,
    Encode.dev_write Encode.init [65; 66] = Ok r /\
    temp (state r) !! 1%nat = Some 0 /\
    (1 <= 1)%nat /\
    messageSize (state r) = 4 /\
    take 4 (message (state r)) = [65; 65; 65; 0] /\
    forall buffer',
      length buffer' = 2%nat ->
      all_but_last buffer' = [65] ->
      exists r',
        Encode.dev_write Encode.init buffer' = Ok r' /\
        messageSize (state r') = messageSize (state r) /\
        take 4 (message (state r')) = take 4 (message (state r)).
Proof.
  apply (final_byte_never_encoded Encode.init [65; 66]).
  - split; reflexivity.
  - simpl. lia.
Defined.

(** C4 (as the code has it).  A write of 256 bytes with no zero byte
    returns 256 and leaves a pending length of exactly 766: the triplets
    of the first 255 bytes and the terminator.  The write ends without an
    access outside [temp] or [message], and [message] keeps its 769
    cells. *)
Theorem max_length_write (st : device) (x : list Z) :
  enc_sized st -> length x = 256%nat -> Forall (fun b => b <> 0) x ->
  exists r,
    Encode.dev_write st x = Ok r /\
    ret r = 256 /\
    messageSize (state r) = 766 /\
    length (message (state r)) = 769%nat /\
    take 766 (message (state r)) = triplicate (all_but_last x) ++ [0].
Proof.
  intros Hs Hx Hnz.
  destruct (enc_encoded st x Hs ltac:(lia))
    as (r & Hr & Hret & [Hm _] & _ & Hsize & Hsent & _).
  rewrite all_but_last_nonzero in Hsize, Hsent by assumption.
  assert (Hl : length (all_but_last x) = 255%nat).
  { unfold all_but_last. rewrite length_take. lia. }
  rewrite Hl in Hsize, Hsent.
  exists r. repeat split; try assumption.
  rewrite Hret, Hx. reflexivity.
Qed.

Lemma max_length_write_witness :
  exists r,
    Encode.dev_write Encode.init (replicate 256 1) = Ok r /\
    ret r = 256 /\
    messageSize (state r) = 766 /\
    length (message (state r)) = 769%nat /\
    take 766 (message (state r)) =
    triplicate (all_but_last (replicate 256 1)) ++ [0].
Proof.
  apply (max_length_write Encode.init (replicate 256 1)).
  - split; reflexivity.
  - reflexivity.
  - apply Forall_replicate. lia.
Defined.

(** C4 as stated fails: 256 bytes of value 1 leave a pending length of
    766, not 769. *)
Lemma max_length_counterexample :
  exists r,
    Encode.dev_write Encode.init (replicate 256 1) = Ok r /\
    messageSize (state r) = 766 /\ messageSize (state r) <> 769.
Proof.
  eexists. split; [vm_compute; reflexivity|].
  cbn [state messageSize]. split; [reflexivity|discriminate].
Qed.

(** C5 (what the code does).  A write of zero bytes, to either device,
    stores the terminator at index [len - 1 = -1] of [temp], outside the
    array, whatever the state. *)
Theorem zero_length_write_out_of_bounds (sgn : bool) (st : device) :
  Encode.prepare st [] = OutOfBounds /\
  Encode.dev_write st [] = OutOfBounds /\
  Decode.prepare st [] = OutOfBounds /\
  Decode.dev_write sgn st [] = OutOfBounds.
Proof.
  repeat split.
  - apply enc_prepare_empty.
  - unfold Encode.dev_write. rewrite enc_prepare_empty. reflexivity.
  - apply dec_prepare_empty.
  - unfold Decode.dev_write. rewrite dec_prepare_empty. reflexivity.
Qed.

(** C6 (what the code does).  The forced terminator sits at index
    [len - 1], which the scan only tests when it starts a triplet.  On a
    fresh decoder a write of five bytes yields two bytes, the second one
    made of the trailing group of two; and after an earlier write of nine
    bytes the same trailing group is voted with stale bytes of that
    earlier write, so its first byte shows in the result and the scan runs
    on into the old data. *)
Theorem partial_group_is_decoded (sgn : bool) :
  (exists w r,
     Decode.dev_write sgn Decode.init [65; 65; 65; 66; 66] = Ok w /\
     Decode.dev_read (state w) 256 = Ok r /\
     ret r = 2 /\ sent r = [65; 0]) /\
  (exists st w r,
     Decode.dev_write sgn Decode.init (replicate 9 255) = Ok st /\
     Decode.dev_write sgn (state st) [1; 1; 1; 65; 65] = Ok w /\
     Decode.dev_read (state w) 256 = Ok r /\
     ret r = 3 /\ sent r = [1; 65; 255]) /\
  (exists st w r,
     Decode.dev_write sgn Decode.init (replicate 9 255) = Ok st /\
     Decode.dev_write sgn (state st) [1; 1; 1; 66; 66] = Ok w /\
     Decode.dev_read (state w) 256 = Ok r /\
     ret r = 3 /\ sent r = [1; 66; 255]).
Proof.
  destruct sgn;
    (split; [|split]);
    repeat (eexists; repeat (split; [vm_compute; reflexivity|]));
    reflexivity.
Qed.

(** ** Reads *)

Lemma copy_to_user_nothing (writable : nat) (msg : list Z) :
  copy_to_user writable msg 0 = Ok ([], 0).
Proof.
  unfold copy_to_user.
  destruct (Z.leb_spec 0 (Z.of_nat (length msg))); [|lia].
  reflexivity.
Qed.

Lemma copy_to_user_pending (writable : nat) (msg : list Z) (size : Z) :
  0 <= size <= Z.of_nat (length msg) ->
  exists delivered error_count,
    copy_to_user writable msg size = Ok (delivered, error_count).
Proof.
  intros H. unfold copy_to_user.
  destruct (Z.leb_spec 0 size); [|lia].
  destruct (Z.leb_spec size (Z.of_nat (length msg))); [|lia].
  eauto.
Qed.

Lemma copy_to_user_failed (writable : nat) (msg delivered : list Z)
    (size error_count : Z) :
  copy_to_user writable msg size = Ok (delivered, error_count) ->
  error_count <> 0 -> size <> 0.
Proof.
  unfold copy_to_user. intros H Hne ->.
  destruct ((0 <=? 0) && (0 <=? Z.of_nat (length msg))); [|discriminate].
  injection H as _ <-. apply Hne. reflexivity.
Qed.

Lemma enc_read_empty (st : device) (writable : nat) :
  messageSize st = 0 -> reads_empty (Encode.dev_read st writable).
Proof.
  intros H. unfold reads_empty, Encode.dev_read.
  rewrite H, copy_to_user_nothing. cbn [bind Z.eqb].
  eexists. split; [reflexivity|]. cbn [ret sent state messageSize]. auto.
Qed.

Lemma dec_read_empty (st : device) (writable : nat) :
  messageSize st = 0 -> reads_empty (Decode.dev_read st writable).
Proof. exact (enc_read_empty st writable). Qed.

Lemma enc_read_clears (st : device) (writable : nat) :
  0 <= messageSize st <= Z.of_nat (length (message st)) ->
  exists r,
    Encode.dev_read st writable = Ok r /\
    messageSize (state r) = 0 /\
    message (state r) = message st /\ temp (state r) = temp st.
Proof.
  intros H. unfold Encode.dev_read.
  destruct (copy_to_user_pending writable _ _ H) as (d & ec & ->).
  cbn [bind]. destruct (ec =? 0); eexists; (split; [reflexivity|]);
    cbn [state messageSize message temp]; auto.
Qed.

Lemma dec_read_clears (st : device) (writable : nat) :
  0 <= messageSize st <= Z.of_nat (length (message st)) ->
  exists r,
    Decode.dev_read st writable = Ok r /\
    messageSize (state r) = 0 /\
    message (state r) = message st /\ temp (state r) = temp st.
Proof. exact (enc_read_clears st writable). Qed.

(** C9.  When the copy to the caller's buffer fails, [dev_read] of either
    device returns [-EFAULT] and has still set the pending length to 0:
    the state after the failed read differs from the state before it. *)
Theorem failed_read_discards_message
    (st : device) (writable : nat) (delivered : list Z) (error_count : Z) :
  copy_to_user writable (message st) (messageSize st)
    = Ok (delivered, error_count) ->
  error_count <> 0 ->
  (exists r,
     Encode.dev_read st writable = Ok r /\
     ret r = -14 /\ messageSize (state r) = 0 /\ state r <> st) /\
  (exists r,
     Decode.dev_read st writable = Ok r /\
     ret r = -14 /\ messageSize (state r) = 0 /\ state r <> st).
Proof.
  intros Hcopy Hfail.
  pose proof (copy_to_user_failed _ _ _ _ _ Hcopy Hfail) as Hsize.
  assert (Hec : (error_count =? 0) = false) by (apply Z.eqb_neq; exact Hfail).
  split; unfold Encode.dev_read, Decode.dev_read; rewrite Hcopy; cbn [bind];
    rewrite Hec; (eexists; split; [reflexivity|]);
    cbn [ret state messageSize]; repeat split; try reflexivity;
    intros Heq; apply Hsize; rewrite <- Heq; reflexivity.
Qed.

Lemma failed_read_discards_message_witness :
  (exists r,
     Encode.dev_read (Device (replicate 769 65) (replicate 256 0) 4 1) 2 = Ok r /\
     ret r = -14 /\ messageSize (state r) = 0 /\
     state r <> Device (replicate 769 65) (replicate 256 0) 4 1) /\
  (exists r,
     Decode.dev_read (Device (replicate 769 65) (replicate 256 0) 4 1) 2 = Ok r /\
     ret r = -14 /\ messageSize (state r) = 0 /\
     state r <> Device (replicate 769 65) (replicate 256 0) 4 1).
Proof.
  apply (failed_read_discards_message
           (Device (replicate 769 65) (replicate 256 0) 4 1) 2 [65; 65] 2).
  - reflexivity.
  - discriminate.
Defined.

(** ** The invariants hold along every run *)

Lemma enc_inv_init : enc_inv Encode.init.
Proof. repeat split; try reflexivity; simpl; lia. Qed.

Lemma dec_inv_init : dec_inv Decode.init.
Proof. repeat split; try reflexivity; simpl; lia. Qed.

(** The scan of the encoder under the invariant. *)
Lemma enc_scan_safe (st : device) (buffer : list Z) :
  enc_inv st -> (1 <= length buffer)%nat ->
  exists len tmp i msg r,
    Encode.prepare st buffer = Ok (len, tmp) /\
    tmp !! 255%nat = Some 0 /\
    Encode.triple_loop Encode.fuel tmp (message st) 0 = Ok (i, msg) /\
    0 <= i <= 255 /\ length msg = 769%nat /\
    Encode.dev_write st buffer = Ok r /\ enc_inv (state r).
Proof.
  intros (Hs & Hlast & Hsize) Hb. pose proof Hs as [Hm Ht].
  unfold Encode.MESSAGE_LEN, Encode.TEMP_LEN in *.
  set (n := Nat.min (length buffer) 256).
  set (tmp := <[(n - 1)%nat := 0]> (take n buffer ++ drop n (temp st))).
  assert (Hz : tmp !! 255%nat = Some 0).
  { change 255%nat with (256 - 1)%nat. rewrite <- Ht.
    apply terminated_last; rewrite ?Ht; try lia. exact Hlast. }
  destruct (forced_terminator (temp st) buffer n) as (Hl & _); [lia|lia|].
  fold tmp in Hl.
  destruct (triple_loop_scan tmp 255 Hz ltac:(lia) Encode.fuel 0 (message st))
    as (k & msg' & Hrun & Hk & Hlen & _).
  { lia. } { unfold Encode.fuel, Encode.TEMP_LEN. lia. } { lia. }
  change (Z.of_nat 0) with 0 in Hrun.
  exists (Z.of_nat n), tmp, (Z.of_nat k), msg'. eexists.
  split; [apply enc_prepare; auto|].
  split; [exact Hz|]. split; [exact Hrun|].
  split; [lia|]. split; [lia|].
  unfold Encode.dev_write. rewrite enc_prepare by auto.
  fold n. fold tmp. cbn [bind]. rewrite Hrun. cbn [bind].
  rewrite (store_nat _ _ (3 * k)) by lia. cbn [bind].
  split; [reflexivity|].
  unfold enc_inv, enc_sized, Encode.MESSAGE_LEN, Encode.TEMP_LEN.
  cbn [state message temp messageSize].
  rewrite length_insert, short_of_id by lia.
  repeat split; try lia. exact Hz.
Qed.

(** The scan of the decoder under the invariant. *)
Lemma dec_scan_safe (sgn : bool) (st : device) (buffer : list Z) :
  dec_inv st -> (1 <= length buffer)%nat ->
  exists len tmp i msg r,
    Decode.prepare st buffer = Ok (len, tmp) /\
    tmp !! 768%nat = Some 0 /\
    Decode.vote_loop sgn Decode.fuel tmp (message st) 0 = Ok (i, msg) /\
    0 <= i <= 768 /\ length msg = 256%nat /\
    Decode.dev_write sgn st buffer = Ok r /\ dec_inv (state r).
Proof.
  intros (Hs & Hlast & Hsize) Hb. pose proof Hs as [Hm Ht].
  unfold Decode.MESSAGE_LEN, Decode.IN_BUFF_SIZE in *.
  set (n := Nat.min (length buffer) 769).
  set (tmp := <[(n - 1)%nat := 0]> (take n buffer ++ drop n (temp st))).
  assert (Hz : tmp !! 768%nat = Some 0).
  { change 768%nat with (769 - 1)%nat. rewrite <- Ht.
    apply terminated_last; rewrite ?Ht; try lia. exact Hlast. }
  destruct (forced_terminator (temp st) buffer n) as (Hl & _); [lia|lia|].
  fold tmp in Hl.
  destruct (vote_loop_scan sgn tmp 256 Hz ltac:(lia) Decode.fuel 0 (message st))
    as (k & msg' & Hrun & Hk & Hlen & _).
  { lia. } { unfold Decode.fuel, Decode.IN_BUFF_SIZE. lia. } { lia. }
  change (Z.of_nat (3 * 0)) with 0 in Hrun.
  exists (Z.of_nat n), tmp, (Z.of_nat (3 * k)), msg'. eexists.
  split; [apply dec_prepare; auto|].
  split; [exact Hz|]. split; [exact Hrun|].
  split; [lia|]. split; [lia|].
  unfold Decode.dev_write. rewrite dec_prepare by auto.
  fold n. fold tmp. cbn [bind]. rewrite Hrun. cbn [bind].
  split; [reflexivity|].
  unfold dec_inv, dec_sized, Decode.MESSAGE_LEN, Decode.IN_BUFF_SIZE.
  cbn [state message temp messageSize].
  rewrite quot_triplet, short_of_id by lia.
  repeat split; try lia. exact Hz.
Qed.

Lemma enc_step_inv (st : device) (c : call) :
  enc_inv st -> nonempty_write c ->
  exists r, Encode.step st c = Ok r /\ enc_inv (state r).
Proof.
  intros Hinv Hc. destruct c as [|w|buffer|]; cbn [Encode.step].
  - eexists. split; [reflexivity|]. exact Hinv.
  - destruct Hinv as ([Hm Ht] & Hlast & Hsize).
    unfold Encode.MESSAGE_LEN in Hm.
    destruct (enc_read_clears st w) as (r & Hr & Hz & Hmsg & Htmp); [lia|].
    exists r. split; [exact Hr|].
    unfold enc_inv, enc_sized. rewrite Hz, Hmsg, Htmp.
    repeat split; auto; lia.
  - destruct (enc_scan_safe st buffer Hinv Hc) as (? & ? & ? & ? & r & H).
    exists r. tauto.
  - eexists. split; [reflexivity|]. exact Hinv.
Qed.

Lemma dec_step_inv (sgn : bool) (st : device) (c : call) :
  dec_inv st -> nonempty_write c ->
  exists r, Decode.step sgn st c = Ok r /\ dec_inv (state r).
Proof.
  intros Hinv Hc. destruct c as [|w|buffer|]; cbn [Decode.step].
  - eexists. split; [reflexivity|]. exact Hinv.
  - destruct Hinv as ([Hm Ht] & Hlast & Hsize).
    unfold Decode.MESSAGE_LEN in Hm.
    destruct (dec_read_clears st w) as (r & Hr & Hz & Hmsg & Htmp); [lia|].
    exists r. split; [exact Hr|].
    unfold dec_inv, dec_sized. rewrite Hz, Hmsg, Htmp.
    repeat split; auto; lia.
  - destruct (dec_scan_safe sgn st buffer Hinv Hc) as (? & ? & ? & ? & r & H).
    exists r. tauto.
  - eexists. split; [reflexivity|]. exact Hinv.
Qed.

Lemma enc_run_inv (cs : list call) (st : device) :
  enc_inv st -> Forall nonempty_write cs ->
  exists st', Encode.run st cs = Ok st' /\ enc_inv st'.
Proof.
  intros Hinv Hcs. revert st Hinv.
  induction Hcs as [|c cs Hc _ IH]; intros st Hinv.
  - exists st. split; [reflexivity|exact Hinv].
  - destruct (enc_step_inv st c Hinv Hc) as (r & Hr & Hinv').
    cbn [Encode.run]. rewrite Hr. cbn [bind]. apply IH. exact Hinv'.
Qed.

Lemma dec_run_inv (sgn : bool) (cs : list call) (st : device) :
  dec_inv st -> Forall nonempty_write cs ->
  exists st', Decode.run sgn st cs = Ok st' /\ dec_inv st'.
Proof.
  intros Hinv Hcs. revert st Hinv.
  induction Hcs as [|c cs Hc _ IH]; intros st Hinv.
  - exists st. split; [reflexivity|exact Hinv].
  - destruct (dec_step_inv sgn st c Hinv Hc) as (r & Hr & Hinv').
    cbn [Decode.run]. rewrite Hr. cbn [bind]. apply IH. exact Hinv'.
Qed.

(** C10.  After every sequence of calls whose writes have at least one
    byte, on either device: the next such write leaves a zero in the last
    cell of [temp] when its scan starts ([temp[255]], [temp[768]]); the
    scan comes to an end with its index inside [temp]; and the write
    returns without an access outside [temp] or [message], the invariant
    holding again. *)
Theorem scans_end_within_bounds (sgn : bool) (cs : list call) (buffer : list Z) :
  Forall nonempty_write cs -> (1 <= length buffer)%nat ->
  (exists st len tmp i msg r,
     Encode.run Encode.init cs = Ok st /\
     Encode.prepare st buffer = Ok (len, tmp) /\
     tmp !! 255%nat = Some 0 /\
     Encode.triple_loop Encode.fuel tmp (message st) 0 = Ok (i, msg) /\
     0 <= i <= 255 /\ length msg = 769%nat /\
     Encode.dev_write st buffer = Ok r /\ enc_inv (state r)) /\
  (exists st len tmp i msg r,
     Decode.run sgn Decode.init cs = Ok st /\
     Decode.prepare st buffer = Ok (len, tmp) /\
     tmp !! 768%nat = Some 0 /\
     Decode.vote_loop sgn Decode.fuel tmp (message st) 0 = Ok (i, msg) /\
     0 <= i <= 768 /\ length msg = 256%nat /\
     Decode.dev_write sgn st buffer = Ok r /\ dec_inv (state r)).
Proof.
  intros Hcs Hb. split.
  - destruct (enc_run_inv cs Encode.init enc_inv_init Hcs) as (st & Hrun & Hinv).
    destruct (enc_scan_safe st buffer Hinv Hb) as (len & tmp & i & msg & r & H).
    exists st, len, tmp, i, msg, r. tauto.
  - destruct (dec_run_inv sgn cs Decode.init dec_inv_init Hcs) as (st & Hrun & Hinv).
    destruct (dec_scan_safe sgn st buffer Hinv Hb) as (len & tmp & i & msg & r & H).
    exists st, len, tmp, i, msg, r. tauto.
Qed.

Lemma scans_end_within_bounds_witness :
  (exists st len tmp i msg r,
     Encode.run Encode.init [Write (replicate 256 7); Read 0] = Ok st /\
     Encode.prepare st [67] = Ok (len, tmp) /\
     tmp !! 255%nat = Some 0 /\
     Encode.triple_loop Encode.fuel tmp (message st) 0 = Ok (i, msg) /\
     0 <= i <= 255 /\ length msg = 769%nat /\
     Encode.dev_write st [67] = Ok r /\ enc_inv (state r)) /\
  (exists st len tmp i msg r,
     Decode.run false Decode.init [Write (replicate 256 7); Read 0] = Ok st /\
     Decode.prepare st [67] = Ok (len, tmp) /\
     tmp !! 768%nat = Some 0 /\
     Decode.vote_loop false Decode.fuel tmp (message st) 0 = Ok (i, msg) /\
     0 <= i <= 768 /\ length msg = 256%nat /\
     Decode.dev_write false st [67] = Ok r /\ dec_inv (state r)).
Proof.
  apply (scans_end_within_bounds false [Write (replicate 256 7); Read 0] [67]).
  - constructor; [unfold nonempty_write; rewrite length_replicate; lia|].
    constructor; [exact I|]. constructor.
  - simpl. lia.
Defined.

(** ** Runs without a write *)

Lemma enc_idle_run (cs : list call) (st : device) :
  Forall idle cs -> messageSize st = 0 ->
  exists st', Encode.run st cs = Ok st' /\ messageSize st' = 0.
Proof.
  intros Hcs. revert st. induction Hcs as [|c cs Hc _ IH]; intros st Hz.
  - exists st. auto.
  - cbn [Encode.run]. destruct c as [|w|buffer|]; cbn [Encode.step].
    + cbn [Encode.dev_open bind state]. apply IH. exact Hz.
    + destruct (enc_read_empty st w Hz) as (r & -> & _ & _ & Hz').
      cbn [bind]. apply IH. exact Hz'.
    + discriminate Hc.
    + cbn [Encode.dev_release bind state]. apply IH. exact Hz.
Qed.

Lemma dec_idle_run (sgn : bool) (cs : list call) (st : device) :
  Forall idle cs -> messageSize st = 0 ->
  exists st', Decode.run sgn st cs = Ok st' /\ messageSize st' = 0.
Proof.
  intros Hcs. revert st. induction Hcs as [|c cs Hc _ IH]; intros st Hz.
  - exists st. auto.
  - cbn [Decode.run]. destruct c as [|w|buffer|]; cbn [Decode.step].
    + cbn [Decode.dev_open bind state]. apply IH. exact Hz.
    + destruct (dec_read_empty st w Hz) as (r & -> & _ & _ & Hz').
      cbn [bind]. apply IH. exact Hz'.
    + discriminate Hc.
    + cbn [Decode.dev_release bind state]. apply IH. exact Hz.
Qed.

(** C7.  On either device, after any sequence [pre] of calls (its writes
    of at least one byte): a read returns and leaves nothing pending; when
    the caller's buffer takes the pending bytes, the read hands over
    exactly these and returns their number; after it and any calls [mid]
    that are not writes, the next read hands over zero bytes and returns
    0; and when [pre] itself has no write, the first read already hands
    over zero bytes and returns 0. *)
Theorem reads_consume_pending (sgn : bool) (pre mid : list call) (w1 w2 : nat) :
  Forall nonempty_write pre -> Forall idle mid ->
  (exists st r1 st2,
     Encode.run Encode.init pre = Ok st /\
     Encode.dev_read st w1 = Ok r1 /\
     messageSize (state r1) = 0 /\
     ((Z.to_nat (messageSize st) <= w1)%nat ->
      ret r1 = messageSize st /\
      sent r1 = take (Z.to_nat (messageSize st)) (message st)) /\
     Encode.run (state r1) mid = Ok st2 /\
     reads_empty (Encode.dev_read st2 w2) /\
     (Forall idle pre -> reads_empty (Encode.dev_read st w1))) /\
  (exists st r1 st2,
     Decode.run sgn Decode.init pre = Ok st /\
     Decode.dev_read st w1 = Ok r1 /\
     messageSize (state r1) = 0 /\
     ((Z.to_nat (messageSize st) <= w1)%nat ->
      ret r1 = messageSize st /\
      sent r1 = take (Z.to_nat (messageSize st)) (message st)) /\
     Decode.run sgn (state r1) mid = Ok st2 /\
     reads_empty (Decode.dev_read st2 w2) /\
     (Forall idle pre -> reads_empty (Decode.dev_read st w1))).
Proof.
  intros Hpre Hmid. split.
  - destruct (enc_run_inv pre Encode.init enc_inv_init Hpre)
      as (st & Hrun & ([Hm _] & _ & Hsize)).
    unfold Encode.MESSAGE_LEN in Hm.
    destruct (enc_read_clears st w1) as (r1 & Hr1 & Hz & _); [lia|].
    destruct (enc_idle_run mid (state r1) Hmid Hz) as (st2 & Hrun2 & Hz2).
    exists st, r1, st2. repeat split; try assumption.
    + rewrite enc_read_all in Hr1 by (assumption || lia).
      injection Hr1 as <-. reflexivity.
    + rewrite enc_read_all in Hr1 by (assumption || lia).
      injection Hr1 as <-. reflexivity.
    + apply enc_read_empty. exact Hz2.
    + intros Hidle.
      destruct (enc_idle_run pre Encode.init Hidle eq_refl) as (st' & Hrun' & Hz').
      rewrite Hrun in Hrun'. injection Hrun' as <-.
      apply enc_read_empty. exact Hz'.
  - destruct (dec_run_inv sgn pre Decode.init dec_inv_init Hpre)
      as (st & Hrun & ([Hm _] & _ & Hsize)).
    unfold Decode.MESSAGE_LEN in Hm.
    destruct (dec_read_clears st w1) as (r1 & Hr1 & Hz & _); [lia|].
    destruct (dec_idle_run sgn mid (state r1) Hmid Hz) as (st2 & Hrun2 & Hz2).
    exists st, r1, st2. repeat split; try assumption.
    + rewrite dec_read_all in Hr1 by (assumption || lia).
      injection Hr1 as <-. reflexivity.
    + rewrite dec_read_all in Hr1 by (assumption || lia).
      injection Hr1 as <-. reflexivity.
    + apply dec_read_empty. exact Hz2.
    + intros Hidle.
      destruct (dec_idle_run sgn pre Decode.init Hidle eq_refl)
        as (st' & Hrun' & Hz').
      rewrite Hrun in Hrun'. injection Hrun' as <-.
      apply dec_read_empty. exact Hz'.
Qed.

Lemma reads_consume_pending_witness :
  (exists st r1 st2,
     Encode.run Encode.init [Open; Write [65; 66]] = Ok st /\
     Encode.dev_read st 769 = Ok r1 /\
     messageSize (state r1) = 0 /\
     ((Z.to_nat (messageSize st) <= 769)%nat ->
      ret r1 = messageSize st /\
      sent r1 = take (Z.to_nat (messageSize st)) (message st)) /\
     Encode.run (state r1) [Open; Read 769; Release] = Ok st2 /\
     reads_empty (Encode.dev_read st2 769) /\
     (Forall idle [Open; Write [65; 66]] ->
      reads_empty (Encode.dev_read st 769))) /\
  (exists st r1 st2,
     Decode.run false Decode.init [Open; Write [65; 66]] = Ok st /\
     Decode.dev_read st 769 = Ok r1 /\
     messageSize (state r1) = 0 /\
     ((Z.to_nat (messageSize st) <= 769)%nat ->
      ret r1 = messageSize st /\
      sent r1 = take (Z.to_nat (messageSize st)) (message st)) /\
     Decode.run false (state r1) [Open; Read 769; Release] = Ok st2 /\
     reads_empty (Decode.dev_read st2 769) /\
     (Forall idle [Open; Write [65; 66]] ->
      reads_empty (Decode.dev_read st 769))).
Proof.
  apply (reads_consume_pending false [Open; Write [65; 66]]
           [Open; Read 769; Release] 769 769).
  - constructor; [exact I|]. constructor; [simpl; lia|]. constructor.
  - repeat constructor.
Defined.

(** * Further properties of the two devices *)

(** ** Clamping of long writes *)

Lemma clamp_take (cap : nat) (dst buffer : list Z) :
  let len b := if Z.of_nat cap <? Z.of_nat (length b)
               then Z.of_nat cap else Z.of_nat (length b) in
  len (take cap buffer) = len buffer /\
  copy_from_user dst (take cap buffer) (len buffer) =
  copy_from_user dst buffer (len buffer) /\
  len buffer = Z.of_nat (Nat.min (length buffer) cap).
Proof.
  intros len. unfold len. rewrite length_take.
  destruct (Z.ltb_spec (Z.of_nat cap) (Z.of_nat (length buffer)));
    destruct (Z.ltb_spec (Z.of_nat cap) (Z.of_nat (Nat.min cap (length buffer))));
    try lia.
  - repeat split; try lia.
    unfold copy_from_user. rewrite Nat2Z.id, take_take, Nat.min_id.
    reflexivity.
  - repeat split; try lia.
    unfold copy_from_user. rewrite Nat2Z.id, take_take.
    replace (Nat.min (length buffer) cap) with (length buffer) by lia.
    reflexivity.
Qed.

Lemma enc_write_clamp (st : device) (buffer : list Z) :
  Encode.dev_write st (take 256 buffer) = Encode.dev_write st buffer.
Proof.
  destruct (clamp_take 256 (temp st) buffer) as (Hlen & Hcopy & _).
  unfold Encode.dev_write, Encode.prepare.
  change 256 with (Z.of_nat 256). cbv zeta in Hlen, Hcopy.
  rewrite Hlen, Hcopy. reflexivity.
Qed.

Lemma dec_write_clamp (sgn : bool) (st : device) (buffer : list Z) :
  Decode.dev_write sgn st (take 769 buffer) = Decode.dev_write sgn st buffer.
Proof.
  destruct (clamp_take 769 (temp st) buffer) as (Hlen & Hcopy & _).
  unfold Decode.dev_write, Decode.prepare, Decode.IN_BUFF_SIZE.
  cbv zeta in Hlen, Hcopy.
  rewrite Hlen, Hcopy. reflexivity.
Qed.

(** X1.  A write of more bytes than [temp] holds is silently clamped: on
    either device, in every state, it is the write of the first 256 (769)
    bytes, down to the new state, the returned count and the bounds of
    every access; the bytes past the clamp are never looked at. *)
Theorem long_write_is_clamped (sgn : bool) (st : device) (buffer : list Z) :
  Encode.dev_write st buffer = Encode.dev_write st (take 256 buffer) /\
  Decode.dev_write sgn st buffer = Decode.dev_write sgn st (take 769 buffer).
Proof.
  split; symmetry; [apply enc_write_clamp|apply dec_write_clamp].
Qed.

(** ** What the encoder hands to its reader, for every write *)

Lemma enc_emits (st : device) (buffer : list Z) (writable : nat) :
  enc_sized st -> (1 <= length buffer)%nat ->
  let p := upto_nul (all_but_last (take 256 buffer)) in
  (3 * length p + 1 <= writable)%nat ->
  exists w r,
    Encode.dev_write st buffer = Ok w /\
    ret w = Z.of_nat (Nat.min (length buffer) 256) /\
    Encode.dev_read (state w) writable = Ok r /\
    ret r = Z.of_nat (3 * length p + 1) /\
    sent r = triplicate p ++ [0] /\
    (length p <= 255)%nat.
Proof.
  intros Hs Hb p Hw.
  assert (Hlen : length (take 256 buffer) = Nat.min (length buffer) 256).
  { rewrite length_take. lia. }
  destruct (enc_encoded st (take 256 buffer) Hs ltac:(lia))
    as (w & Hrun & Hret & [Hm _] & Hp & Hsize & Hsent & _).
  fold p in Hp, Hsize, Hsent. unfold Encode.MESSAGE_LEN in Hm.
  rewrite enc_write_clamp in Hrun.
  exists w. eexists. split; [exact Hrun|].
  split; [rewrite Hret, Hlen; reflexivity|].
  rewrite enc_read_all by (rewrite Hsize, ?Nat2Z.id; lia).
  split; [reflexivity|]. cbn [ret sent].
  rewrite Hsize, Nat2Z.id, Hsent. repeat split. lia.
Qed.

(** X2.  For every write of at least one byte to the encoder, in every
    state with buffers of the declared sizes: the write returns the
    clamped length, and the next read (into a buffer that takes them)
    hands over the triplets of the bytes that come before the first zero
    byte among the first [min(len, 256) - 1] bytes written, followed by
    one zero byte, and returns their number.  Nothing of an earlier write
    shows. *)
Theorem encoder_emits_triplets_and_terminator
    (st : device) (buffer : list Z) (writable : nat) :
  enc_sized st -> (1 <= length buffer)%nat ->
  (3 * length (upto_nul (all_but_last (take 256 buffer))) + 1 <= writable)%nat ->
  exists w r,
    Encode.dev_write st buffer = Ok w /\
    ret w = Z.of_nat (Nat.min (length buffer) 256) /\
    Encode.dev_read (state w) writable = Ok r /\
    ret r = Z.of_nat (3 * length (upto_nul (all_but_last (take 256 buffer))) + 1) /\
    sent r = triplicate (upto_nul (all_but_last (take 256 buffer))) ++ [0].
Proof.
  intros Hs Hb Hw.
  destruct (enc_emits st buffer writable Hs Hb Hw)
    as (w & r & H1 & H2 & H3 & H4 & H5 & _).
  exists w, r. auto.
Qed.

Lemma encoder_emits_triplets_and_terminator_witness :
  exists w r,
    Encode.dev_write Encode.init [72; 105; 0; 33; 10] = Ok w /\
    ret w = 5 /\
    Encode.dev_read (state w) 16 = Ok r /\
    ret r = 7 /\
    sent r = [72; 72; 72; 105; 105; 105; 0].
Proof.
  apply (encoder_emits_triplets_and_terminator Encode.init [72; 105; 0; 33; 10] 16).
  - split; reflexivity.
  - simpl. lia.
  - simpl. lia.
Defined.

Lemma upto_nul_all_nonzero (l : list Z) : Forall (fun b => b <> 0) (upto_nul l).
Proof.
  apply Forall_lookup. intros i v H.
  apply upto_nul_lookup in H. tauto.
Qed.

Lemma triplicate_nonzero (p : list Z) :
  Forall (fun b => b <> 0) p -> Forall (fun b => b <> 0) (triplicate p).
Proof.
  induction 1 as [|b p Hb _ IH]; simpl; repeat constructor; assumption.
Qed.

(** X3.  What the encoder hands over is always well formed for the
    receiver's scan: its length is [3 n + 1] with [n <= 255] (at most 766
    of the 769 bytes of [message]), its last byte is the only zero byte,
    and the three bytes of every triplet are equal. *)
Theorem encoder_output_well_formed (st : device) (buffer : list Z) :
  enc_sized st -> (1 <= length buffer)%nat ->
  exists w r (n : nat),
    Encode.dev_write st buffer = Ok w /\
    Encode.dev_read (state w) 769 = Ok r /\
    (n <= 255)%nat /\ length (sent r) = (3 * n + 1)%nat /\
    sent r !! (3 * n)%nat = Some 0 /\
    Forall (fun b => b <> 0) (take (3 * n) (sent r)) /\
    forall j, (j < n)%nat ->
      sent r !! (3 * j + 1)%nat = sent r !! (3 * j)%nat /\
      sent r !! (3 * j + 2)%nat = sent r !! (3 * j)%nat.
Proof.
  intros Hs Hb.
  destruct (enc_emits st buffer 769 Hs Hb) as (w & r & H1 & _ & H3 & _ & H5 & Hn).
  { assert (length (upto_nul (all_but_last (take 256 buffer))) <= 255)%nat; [|lia].
    destruct (enc_encoded st (take 256 buffer) Hs) as (_ & _ & _ & _ & Hp & _).
    - rewrite length_take. lia.
    - rewrite length_take in Hp. lia. }
  set (p := upto_nul (all_but_last (take 256 buffer))) in *.
  exists w, r, (length p). rewrite H5.
  split; [exact H1|]. split; [exact H3|]. split; [exact Hn|].
  assert (Hl : length (triplicate p) = (3 * length p)%nat) by apply length_triplicate.
  repeat split.
  - rewrite length_app, Hl. simpl. lia.
  - rewrite lookup_app_r by lia. rewrite Hl, Nat.sub_diag. reflexivity.
  - rewrite take_app_length' by (symmetry; exact Hl).
    apply triplicate_nonzero, upto_nul_all_nonzero.
  - destruct (sent_lookup p j) as (S0 & S1 & S2); [assumption|]. congruence.
  - destruct (sent_lookup p j) as (S0 & S1 & S2); [assumption|]. congruence.
Qed.

Lemma encoder_output_well_formed_witness :
  exists w r (n : nat),
    Encode.dev_write Encode.init (replicate 300 7) = Ok w /\
    Encode.dev_read (state w) 769 = Ok r /\
    (n <= 255)%nat /\ length (sent r) = (3 * n + 1)%nat /\
    sent r !! (3 * n)%nat = Some 0 /\
    Forall (fun b => b <> 0) (take (3 * n) (sent r)) /\
    forall j, (j < n)%nat ->
      sent r !! (3 * j + 1)%nat = sent r !! (3 * j)%nat /\
      sent r !! (3 * j + 2)%nat = sent r !! (3 * j)%nat.
Proof.
  apply (encoder_output_well_formed Encode.init (replicate 300 7)).
  - split; reflexivity.
  - rewrite length_replicate. lia.
Defined.

(** ** Round trips for every input *)

Lemma transmit_clean_payload (sgn : bool) (enc dec : device) (x : list Z) :
  enc_sized enc -> dec_sized dec -> (1 <= length x <= 256)%nat ->
  Forall is_byte x ->
  transmit sgn enc dec clean x = Ok (upto_nul (all_but_last x)).
Proof.
  intros He Hd Hx Hbytes.
  apply transmit_recovers; try assumption.
  - unfold clean. rewrite length_app, length_triplicate. simpl. lia.
  - intros j v Hv. destruct (payload_lookup x j v Hbytes Hv) as [Hbv Hnv].
    destruct (sent_lookup (upto_nul (all_but_last x)) j) as (S0 & S1 & S2).
    { eapply lookup_lt_Some. exact Hv. }
    exists v, v, v. unfold clean. rewrite S0, S1, S2.
    repeat split; try assumption.
    apply (vote_outvoted sgn v v Hbv Hbv).
Qed.

Lemma transmit_clamp (sgn : bool) (enc dec : device)
    (channel : list Z -> list Z) (x : list Z) :
  transmit sgn enc dec channel (take 256 x) = transmit sgn enc dec channel x.
Proof. unfold transmit. rewrite enc_write_clamp. reflexivity. Qed.

(** X4.  Round trip for every input of at least one byte, zero bytes and
    overlong inputs included: encoder write, encoder read, decoder write
    and decoder read return the bytes that come before the first zero
    byte among the first [min(len, 256) - 1] bytes of the input, whatever
    the two devices held before. *)
Theorem round_trip_of_any_input (sgn : bool) (enc dec : device) (x : list Z) :
  enc_sized enc -> dec_sized dec -> (1 <= length x)%nat -> Forall is_byte x ->
  transmit sgn enc dec clean x = Ok (upto_nul (all_but_last (take 256 x))).
Proof.
  intros He Hd Hx Hbytes. rewrite <- transmit_clamp.
  apply transmit_clean_payload; try assumption.
  - rewrite length_take. lia.
  - apply Forall_take. exact Hbytes.
Qed.

Lemma round_trip_of_any_input_witness :
  transmit true Encode.init Decode.init clean [72; 105; 0; 33; 10] = Ok [72; 105].
Proof.
  apply (round_trip_of_any_input true Encode.init Decode.init [72; 105; 0; 33; 10]).
  - split; reflexivity.
  - split; reflexivity.
  - simpl. lia.
  - repeat constructor; unfold is_byte; lia.
Defined.

Lemma all_but_last_snoc (x : list Z) (b : Z) : all_but_last (x ++ [b]) = x.
Proof.
  unfold all_but_last. rewrite length_app. simpl.
  replace (length x + 1 - 1)%nat with (length x) by lia.
  apply take_app_length.
Qed.

(** X5.  A caller that appends one byte of its own (a newline, a
    terminator) gets an exact round trip: for every [x] of at most 255
    nonzero bytes and every final byte, writing [x] followed by that byte
    makes the decoder return [x]. *)
Theorem round_trip_with_final_byte_is_exact
    (sgn : bool) (enc dec : device) (x : list Z) (final : Z) :
  enc_sized enc -> dec_sized dec -> (length x <= 255)%nat ->
  Forall is_byte x -> Forall (fun b => b <> 0) x -> is_byte final ->
  transmit sgn enc dec clean (x ++ [final]) = Ok x.
Proof.
  intros He Hd Hx Hbytes Hnz Hfinal.
  rewrite transmit_clean_payload; try assumption.
  - rewrite all_but_last_snoc, upto_nul_nonzero by assumption. reflexivity.
  - rewrite length_app. simpl. lia.
  - apply Forall_app. split; [assumption|].
    constructor; [assumption|constructor].
Qed.

Lemma round_trip_with_final_byte_is_exact_witness :
  transmit false Encode.init Decode.init clean ([65; 66] ++ [10]) = Ok [65; 66].
Proof.
  apply (round_trip_with_final_byte_is_exact
           false Encode.init Decode.init [65; 66] 10).
  - split; reflexivity.
  - split; reflexivity.
  - simpl. lia.
  - repeat constructor; unfold is_byte; lia.
  - repeat constructor; lia.
  - unfold is_byte. lia.
Defined.

(** ** Noise that the vote absorbs, noise that it does not *)

Lemma lxor_byte (b e : Z) : is_byte b -> is_byte e -> is_byte (Z.lxor b e).
Proof. intros Hb He. exact (flip_bits_byte e b He Hb). Qed.

Lemma vote_disjoint_flips (sgn : bool) (v e0 e1 e2 : Z) :
  is_byte v -> is_byte e0 -> is_byte e1 -> is_byte e2 ->
  disjoint_masks e0 e1 e2 ->
  Decode.vote sgn (Z.lxor v e0) (Z.lxor v e1) (Z.lxor v e2) = v.
Proof.
  intros Hv H0 H1 H2 (D01 & D02 & D12).
  apply Z.bits_inj'. intros k Hk.
  rewrite vote_bits by (apply lxor_byte; assumption).
  rewrite !Z.lxor_spec.
  apply (f_equal (fun z => Z.testbit z k)) in D01, D02, D12.
  rewrite Z.land_spec, Z.bits_0 in D01, D02, D12.
  unfold majority.
  destruct (Z.testbit v k), (Z.testbit e0 k), (Z.testbit e1 k),
    (Z.testbit e2 k); simpl in *; congruence.
Qed.

Lemma noise_lookup (e data : list Z) (i : nat) (b m : Z) :
  data !! i = Some b -> e !! i = Some m -> noise e data !! i = Some (Z.lxor b m).
Proof.
  intros Hb Hm. unfold noise. rewrite lookup_zip_with, Hb, Hm. reflexivity.
Qed.

(** X6.  The decoder absorbs every error pattern that, in each triplet,
    flips each bit position in at most one of the three copies (the three
    masks of a triplet have no bit in common) and leaves the first copy
    nonzero; different copies may be hit at different bit positions, in
    every triplet at once, and the terminator byte may be hit at will.
    The decoder then returns what it returns without noise. *)
Theorem per_bit_noise_is_absorbed
    (sgn : bool) (enc dec : device) (x e : list Z) :
  enc_sized enc -> dec_sized dec -> (1 <= length x <= 256)%nat ->
  Forall is_byte x -> Forall is_byte e ->
  length e = (3 * length (upto_nul (all_but_last x)) + 1)%nat ->
  (forall j v e0 e1 e2,
     upto_nul (all_but_last x) !! j = Some v ->
     e !! (3 * j)%nat = Some e0 -> e !! (3 * j + 1)%nat = Some e1 ->
     e !! (3 * j + 2)%nat = Some e2 ->
     disjoint_masks e0 e1 e2 /\ Z.lxor v e0 <> 0) ->
  transmit sgn enc dec (noise e) x = Ok (upto_nul (all_but_last x)).
Proof.
  intros He Hd Hx Hbytes Hebytes Hlen Hmasks.
  set (p := upto_nul (all_but_last x)) in *.
  apply transmit_recovers; try assumption; fold p.
  - unfold noise. rewrite length_zip_with, length_app, length_triplicate.
    simpl. lia.
  - intros j v Hv. destruct (payload_lookup x j v Hbytes Hv) as [Hbv Hnv].
    assert (Hj : (j < length p)%nat) by (eapply lookup_lt_Some; exact Hv).
    destruct (sent_lookup p j Hj) as (S0 & S1 & S2). rewrite Hv in S0, S1, S2.
    destruct (lookup_in_range e (3 * j)) as [e0 E0]; [lia|].
    destruct (lookup_in_range e (3 * j + 1)) as [e1 E1]; [lia|].
    destruct (lookup_in_range e (3 * j + 2)) as [e2 E2]; [lia|].
    destruct (Hmasks j v e0 e1 e2 Hv E0 E1 E2) as [Hdis Hfirst].
    rewrite Forall_lookup in Hebytes.
    exists (Z.lxor v e0), (Z.lxor v e1), (Z.lxor v e2).
    rewrite (noise_lookup e _ _ v e0 S0 E0), (noise_lookup e _ _ v e1 S1 E1),
      (noise_lookup e _ _ v e2 S2 E2).
    repeat split; try assumption.
    apply vote_disjoint_flips; eauto.
Qed.

Lemma per_bit_noise_is_absorbed_witness :
  transmit false Encode.init Decode.init
    (noise [1; 32; 128; 0; 66; 0; 255]) [65; 66; 67] = Ok [65; 66].
Proof.
  apply (per_bit_noise_is_absorbed false Encode.init Decode.init
           [65; 66; 67] [1; 32; 128; 0; 66; 0; 255]).
  - split; reflexivity.
  - split; reflexivity.
  - simpl. lia.
  - repeat constructor; unfold is_byte; lia.
  - repeat constructor; unfold is_byte; lia.
  - reflexivity.
  - intros j v e0 e1 e2 Hv E0 E1 E2.
    destruct j as [|[|j]]; simpl in Hv, E0, E1, E2.
    + injection Hv as <-. injection E0 as <-. injection E1 as <-.
      injection E2 as <-. repeat split; (reflexivity || discriminate).
    + injection Hv as <-. injection E0 as <-. injection E1 as <-.
      injection E2 as <-. repeat split; (reflexivity || discriminate).
    + discriminate Hv.
Defined.

Lemma transmit_decodes (sgn : bool) (enc dec : device)
    (channel : list Z -> list Z) (x y : list Z) :
  enc_sized enc -> dec_sized dec -> (1 <= length x <= 256)%nat ->
  let p := upto_nul (all_but_last x) in
  let data := channel (triplicate p ++ [0]) in
  length y = length p ->
  length data = (3 * length p + 1)%nat ->
  (forall j v, y !! j = Some v ->
     exists a b c, data !! (3 * j)%nat = Some a /\ a <> 0 /\
       data !! (3 * j + 1)%nat = Some b /\
       data !! (3 * j + 2)%nat = Some c /\
       Decode.vote sgn a b c = v) ->
  transmit sgn enc dec channel x = Ok y.
Proof.
  intros He Hd Hx p data Hy Hlen Hvotes.
  destruct (enc_encoded enc x He Hx)
    as (w & Hw & _ & [Hwm _] & Hp & Hsize & Hsent & _).
  fold p in Hp, Hsize, Hsent.
  unfold transmit. rewrite Hw. cbn [bind].
  unfold Encode.MESSAGE_LEN in *.
  rewrite enc_read_all by (rewrite Hsize, ?Hwm; lia). cbn [bind sent state].
  rewrite Hsize, Nat2Z.id, Hsent. fold data.
  rewrite <- Hy in Hlen.
  destruct (dec_decoded sgn dec data y Hd Hlen ltac:(lia) Hvotes)
    as (w' & Hw' & [Hwm' _] & Hsize' & Hsent').
  rewrite Hw'. cbn [bind].
  unfold Decode.MESSAGE_LEN in *.
  rewrite dec_read_all by (rewrite Hsize', ?Hwm'; lia). cbn [bind sent].
  rewrite Hsize', Nat2Z.id, Hsent'. reflexivity.
Qed.

Lemma flip_bits_changes (mask b : Z) : mask <> 0 -> flip_bits mask b <> b.
Proof.
  unfold flip_bits. intros Hm Heq. apply Hm.
  assert (H : Z.lxor b (Z.lxor b mask) = mask).
  { rewrite <- Z.lxor_assoc, Z.lxor_nilpotent, Z.lxor_0_l. reflexivity. }
  rewrite Heq, Z.lxor_nilpotent in H. symmetry. exact H.
Qed.

(** X7.  Two copies are one too many: when the same bits are flipped in
    the first and in the second copy of one triplet (the first copy
    staying nonzero), the decoder returns the flipped byte at that place,
    so the result differs from the result without noise. *)
Theorem double_copy_corruption_wins
    (sgn : bool) (enc dec : device) (x : list Z) (t : nat) (mask : Z) :
  enc_sized enc -> dec_sized dec -> (1 <= length x <= 256)%nat ->
  Forall is_byte x -> Forall (fun b => b <> 0) x ->
  (t < length x - 1)%nat -> is_byte mask -> mask <> 0 ->
  (forall b, x !! t = Some b -> flip_bits mask b <> 0) ->
  transmit sgn enc dec (fun data => corrupt t 1 mask (corrupt t 0 mask data)) x
    = Ok (alter (flip_bits mask) t (all_but_last x)) /\
  alter (flip_bits mask) t (all_but_last x) <> all_but_last x.
Proof.
  intros He Hd Hx Hbytes Hnz Ht Hmask Hm0 Hfirst.
  assert (Hp : upto_nul (all_but_last x) = all_but_last x)
    by (apply all_but_last_nonzero; assumption).
  assert (Hl : length (all_but_last x) = (length x - 1)%nat).
  { unfold all_but_last. rewrite length_take. lia. }
  destruct (lookup_in_range (all_but_last x) t) as [vt Hvt]; [lia|].
  split.
  - apply transmit_decodes; try assumption; rewrite ?Hp.
    + apply length_alter.
    + unfold corrupt. rewrite !length_alter, length_app, length_triplicate.
      simpl. lia.
    + intros j v' Hv'.
      assert (Hj : (j < length (all_but_last x))%nat).
      { apply lookup_lt_Some in Hv'. rewrite length_alter in Hv'. exact Hv'. }
      destruct (lookup_in_range (all_but_last x) j Hj) as [v Hv].
      destruct (sent_lookup (all_but_last x) j Hj) as (S0 & S1 & S2).
      rewrite Hv in S0, S1, S2.
      assert (Hbv : is_byte v /\ v <> 0).
      { apply (payload_lookup x j v Hbytes). rewrite Hp. exact Hv. }
      destruct Hbv as [Hbv Hnv].
      pose proof (flip_bits_byte mask v Hmask Hbv) as Hflip.
      unfold corrupt. destruct (decide (j = t)) as [->|Hne].
      * rewrite list_lookup_alter_eq, Hv in Hv'. injection Hv' as <-.
        exists (flip_bits mask v), (flip_bits mask v), v.
        rewrite Nat.add_0_r.
        rewrite (list_lookup_alter_ne _ _ (3 * t + 1)%nat (3 * t)%nat) by lia.
        rewrite list_lookup_alter_eq, S0.
        rewrite list_lookup_alter_eq, list_lookup_alter_ne, S1 by lia.
        rewrite !list_lookup_alter_ne, S2 by lia.
        repeat split.
        -- apply Hfirst. unfold all_but_last in Hv.
           apply lookup_take_Some in Hv as [Hv _]. exact Hv.
        -- apply (vote_outvoted sgn (flip_bits mask v) v Hflip Hbv).
      * rewrite list_lookup_alter_ne in Hv' by auto.
        assert (v' = v) by congruence. subst v'.
        exists v, v, v. rewrite !list_lookup_alter_ne by lia.
        rewrite S0, S1, S2. repeat split; auto.
        apply (vote_outvoted sgn v v Hbv Hbv).
  - intros Heq. apply (f_equal (fun l => l !! t)) in Heq.
    rewrite list_lookup_alter_eq, Hvt in Heq. injection Heq as Heq.
    exact (flip_bits_changes mask vt Hm0 Heq).
Qed.

Lemma double_copy_corruption_wins_witness :
  transmit false Encode.init Decode.init
    (fun data => corrupt 0 1 3 (corrupt 0 0 3 data)) [65; 66] = Ok [66] /\
  [66] <> [65].
Proof.
  apply (double_copy_corruption_wins false Encode.init Decode.init [65; 66] 0 3).
  - split; reflexivity.
  - split; reflexivity.
  - simpl. lia.
  - repeat constructor; unfold is_byte; lia.
  - repeat constructor; lia.
  - simpl. lia.
  - unfold is_byte. lia.
  - discriminate.
  - intros b Hb. injection Hb as <-. discriminate.
Defined.

(** ** The decoder as a function of the received bytes *)

Lemma decode_ref_scan (sgn : bool) (k : nat) :
  forall (l y : list Z),
    length y = k ->
    l !! (3 * k)%nat = Some 0 \/ (length l < 3 * k + 3)%nat ->
    (forall j, (j < k)%nat ->
       exists a b c, l !! (3 * j)%nat = Some a /\ a <> 0 /\
         l !! (3 * j + 1)%nat = Some b /\
         l !! (3 * j + 2)%nat = Some c /\
         y !! j = Some (Decode.vote sgn a b c)) ->
    decode_ref sgn l = y.
Proof.
  induction k as [|k IH]; intros l y Hy Hstop Hvotes.
  - destruct y; [|discriminate Hy].
    destruct l as [|a [|b [|c rest]]]; try reflexivity.
    destruct Hstop as [H0|Hshort]; [|simpl in Hshort; lia].
    simpl in H0. injection H0 as ->. reflexivity.
  - destruct (Hvotes 0%nat ltac:(lia)) as (a & b & c & Ha & Hnz & Hb & Hc & Hy0).
    destruct l as [|a' [|b' [|c' rest]]]; try discriminate.
    simpl in Ha, Hb, Hc. injection Ha as ->. injection Hb as ->.
    injection Hc as ->.
    destruct y as [|v y]; [discriminate Hy|].
    simpl in Hy0. injection Hy0 as ->.
    cbn [decode_ref]. destruct (Z.eqb_spec a 0); [contradiction|].
    f_equal. apply IH.
    + simpl in Hy. lia.
    + replace (3 * S k)%nat with (S (S (S (3 * k)))) in Hstop by lia.
      simpl in Hstop. destruct Hstop; [left; assumption|right; lia].
    + intros j Hj. destruct (Hvotes (S j) ltac:(lia))
        as (a1 & b1 & c1 & H1 & Hn1 & H2 & H3 & H4).
      replace (3 * S j)%nat with (S (S (S (3 * j)))) in H1, H2, H3 by lia.
      simpl in H1, H2, H3, H4. exists a1, b1, c1. auto.
Qed.

(** X8.  For every write of at least one byte to a decoder that satisfies
    its invariant (every state the device reaches does), the write returns
    the clamped length, and the next read hands over exactly
    [decode_ref] of the scratch buffer as the write left it: the
    clamped input with its final byte replaced by zero, followed by what
    [temp] held past it. *)
Theorem decoder_decodes_its_scratch_buffer
    (sgn : bool) (st : device) (buffer : list Z) :
  dec_inv st -> (1 <= length buffer)%nat ->
  let n := Nat.min (length buffer) 769 in
  exists w r,
    Decode.dev_write sgn st buffer = Ok w /\
    ret w = Z.of_nat n /\
    temp (state w) = <[(n - 1)%nat := 0]> (take n buffer ++ drop n (temp st)) /\
    Decode.dev_read (state w) 256 = Ok r /\
    sent r = decode_ref sgn (temp (state w)) /\
    ret r = Z.of_nat (length (decode_ref sgn (temp (state w)))).
Proof.
  intros (Hs & Hlast & _) Hb n.
  pose proof Hs as [Hm Ht].
  unfold Decode.IN_BUFF_SIZE, Decode.MESSAGE_LEN in *.
  destruct (dec_write_scan sgn st buffer 256 Hs Hb)
    as (k & msg' & Hk & Hzero & Hvote & Hlen & _ & Hrun).
  { change (3 * 256)%nat with (769 - 1)%nat. rewrite <- Ht.
    apply terminated_last; rewrite ?Ht; try lia. exact Hlast. }
  fold n in Hzero, Hvote, Hrun.
  set (tmp := <[(n - 1)%nat := 0]> (take n buffer ++ drop n (temp st))) in *.
  unfold Decode.MESSAGE_LEN in Hlen.
  assert (Href : decode_ref sgn tmp = take k msg').
  { apply (decode_ref_scan sgn k).
    - rewrite length_take. lia.
    - left. exact Hzero.
    - intros j Hj. destruct (Hvote j Hj) as (a & b & c & Ha & Hnz & Hb' & Hc & Hv).
      exists a, b, c. rewrite lookup_take_lt by lia. auto. }
  eexists. eexists. split; [exact Hrun|]. cbn [state ret temp].
  split; [reflexivity|]. split; [reflexivity|].
  rewrite dec_read_all by (cbn [messageSize message]; rewrite ?Nat2Z.id; lia).
  split; [reflexivity|]. cbn [sent ret messageSize message].
  rewrite Nat2Z.id, Href, length_take. split; [reflexivity|]. f_equal. lia.
Qed.

Lemma decoder_decodes_its_scratch_buffer_witness :
  exists w r,
    Decode.dev_write true Decode.init [65; 65; 65; 66; 66] = Ok w /\
    ret w = 5 /\
    temp (state w) =
      <[4%nat := 0]> ([65; 65; 65; 66; 66] ++ drop 5 (temp Decode.init)) /\
    Decode.dev_read (state w) 256 = Ok r /\
    sent r = decode_ref true (temp (state w)) /\
    ret r = Z.of_nat (length (decode_ref true (temp (state w)))).
Proof.
  apply (decoder_decodes_its_scratch_buffer true Decode.init [65; 65; 65; 66; 66]).
  - repeat split; try reflexivity; simpl; lia.
  - simpl. lia.
Defined.

Lemma dec_aligned_pending (sgn : bool) (st : device) (buffer : list Z) (n : nat) :
  dec_sized st -> length buffer = (3 * n + 1)%nat -> (n <= 256)%nat ->
  let d := decode_ref sgn (take (3 * n) buffer) in
  exists w,
    Decode.dev_write sgn st buffer = Ok w /\
    messageSize (state w) = Z.of_nat (length d) /\
    take (length d) (message (state w)) = d /\
    length (message (state w)) = 256%nat /\ (length d <= 256)%nat.
Proof.
  intros Hs Hlen Hn d. pose proof Hs as [Hm Ht].
  unfold Decode.IN_BUFF_SIZE, Decode.MESSAGE_LEN in *.
  destruct (forced_terminator (temp st) buffer (3 * n + 1))
    as (_ & Hz & Hcopy & _); [lia | lia |].
  replace (3 * n + 1 - 1)%nat with (3 * n)%nat in Hz, Hcopy by lia.
  destruct (dec_write_scan sgn st buffer n Hs ltac:(lia))
    as (k & msg' & Hk & Hzero & Hvote & Hl & _ & Hrun).
  { rewrite Nat.min_l by lia. rewrite Hlen.
    replace (3 * n + 1 - 1)%nat with (3 * n)%nat by lia. exact Hz. }
  rewrite Nat.min_l in Hrun, Hzero, Hvote by lia.
  rewrite Hlen in Hrun, Hzero, Hvote.
  replace (3 * n + 1 - 1)%nat with (3 * n)%nat in Hrun, Hzero, Hvote by lia.
  set (tmp := <[(3 * n)%nat := 0]>
                (take (3 * n + 1) buffer ++ drop (3 * n + 1) (temp st))) in *.
  unfold Decode.MESSAGE_LEN in Hl.
  assert (Href : d = take k msg').
  { apply (decode_ref_scan sgn k).
    - rewrite length_take. lia.
    - destruct (decide (k = n)) as [->|Hne].
      + right. rewrite length_take. lia.
      + left. rewrite lookup_take_lt by lia. rewrite <- Hcopy by lia.
        exact Hzero.
    - intros j Hj. destruct (Hvote j Hj) as (a & b & c & Ha & Hnz & Hb' & Hc & Hv).
      exists a, b, c. rewrite !lookup_take_lt by lia.
      rewrite <- !Hcopy by lia. auto. }
  assert (Hd : length d = k) by (rewrite Href, length_take; lia).
  eexists. split; [exact Hrun|]. cbn [state messageSize message].
  rewrite Hd. repeat split; try lia. symmetry. exact Href.
Qed.

(** X9.  A write of [3 n + 1] bytes to the decoder does not depend on what
    the device held before, and ignores its final byte: in every state
    with buffers of the declared sizes, the next read hands over
    [decode_ref] of the first [3 n] bytes, the votes of the triplets up to
    the first triplet that starts with a zero byte. *)
Theorem aligned_write_is_decoded_alone
    (sgn : bool) (st : device) (buffer : list Z) (n : nat) :
  dec_sized st -> length buffer = (3 * n + 1)%nat -> (n <= 256)%nat ->
  exists w r,
    Decode.dev_write sgn st buffer = Ok w /\
    Decode.dev_read (state w) 256 = Ok r /\
    sent r = decode_ref sgn (take (3 * n) buffer) /\
    ret r = Z.of_nat (length (decode_ref sgn (take (3 * n) buffer))).
Proof.
  intros Hs Hlen Hn.
  destruct (dec_aligned_pending sgn st buffer n Hs Hlen Hn)
    as (w & Hrun & Hsize & Hsent & Hm & Hd).
  exists w. eexists. split; [exact Hrun|].
  rewrite dec_read_all by (rewrite Hsize, ?Nat2Z.id; lia).
  split; [reflexivity|]. cbn [sent ret].
  rewrite Hsize, Nat2Z.id, Hsent. split; reflexivity.
Qed.

Lemma aligned_write_is_decoded_alone_witness :
  exists w r,
    Decode.dev_write false Decode.init [65; 65; 65; 0; 66; 66; 66] = Ok w /\
    Decode.dev_read (state w) 256 = Ok r /\
    sent r = [65] /\ ret r = 1.
Proof.
  apply (aligned_write_is_decoded_alone
           false Decode.init [65; 65; 65; 0; 66; 66; 66] 2).
  - split; reflexivity.
  - reflexivity.
  - lia.
Defined.

(** X10.  The decoder also takes the triplets without the terminator
    byte, provided the cell of [temp] just past them is zero (a fresh
    device, or earlier writes no longer than this one): the forced
    terminator then replaces the third copy of the last triplet, the
    other two copies outvote it, and the read hands over the payload. *)
Theorem triplets_without_terminator_decode
    (sgn : bool) (st : device) (y : list Z) :
  dec_sized st -> (1 <= length y <= 256)%nat ->
  Forall is_byte y -> Forall (fun b => b <> 0) y ->
  temp st !! (3 * length y)%nat = Some 0 ->
  exists w r,
    Decode.dev_write sgn st (triplicate y) = Ok w /\
    Decode.dev_read (state w) 256 = Ok r /\
    sent r = y /\ ret r = Z.of_nat (length y).
Proof.
  intros Hs Hy Hbytes Hnz Hclean. pose proof Hs as [Hm Ht].
  unfold Decode.IN_BUFF_SIZE, Decode.MESSAGE_LEN in *.
  set (n := length y) in *.
  assert (Hlen : length (triplicate y) = (3 * n)%nat) by apply length_triplicate.
  destruct (forced_terminator (temp st) (triplicate y) (3 * n))
    as (_ & Hz & Hcopy & Hkeep); [lia | lia |].
  destruct (dec_write_scan sgn st (triplicate y) n Hs ltac:(lia))
    as (k & msg' & Hk & Hzero & Hvote & Hl & _ & Hrun).
  { rewrite Hlen, Nat.min_l by lia. rewrite Hkeep by lia. exact Hclean. }
  rewrite Hlen, Nat.min_l in Hrun, Hzero, Hvote by lia.
  set (tmp := <[(3 * n - 1)%nat := 0]>
                (take (3 * n) (triplicate y) ++ drop (3 * n) (temp st))) in *.
  unfold Decode.MESSAGE_LEN in Hl.
  rewrite Forall_lookup in Hbytes. rewrite Forall_lookup in Hnz.
  assert (Hfirst : forall j v, y !! j = Some v -> tmp !! (3 * j)%nat = Some v).
  { intros j v Hv. apply lookup_lt_Some in Hv as Hj. fold n in Hj.
    rewrite Hcopy by lia. destruct (triplicate_lookup y j) as (T0 & _).
    rewrite T0. exact Hv. }
  assert (k = n) as ->.
  { destruct (decide (k = n)) as [|Hne]; [assumption|exfalso].
    destruct (lookup_in_range y k) as [v Hv]; [fold n; lia|].
    rewrite (Hfirst k v Hv) in Hzero. injection Hzero as ->.
    exact (Hnz k 0 Hv eq_refl). }
  eexists. eexists. split; [exact Hrun|]. cbn [state].
  rewrite dec_read_all by (cbn [messageSize message]; rewrite ?Nat2Z.id; lia).
  split; [reflexivity|]. cbn [sent ret messageSize message].
  rewrite Nat2Z.id. split; [|reflexivity].
  apply list_eq_same_length with (n := n).
  - reflexivity.
  - rewrite length_take. lia.
  - intros i x v Hi Hx Hv. rewrite lookup_take_lt in Hx by lia.
    destruct (Hvote i Hi) as (a & b & c & Ha & _ & Hb & Hc & Hx').
    rewrite (Hfirst i v Hv) in Ha. injection Ha as <-.
    destruct (triplicate_lookup y i) as (_ & T1 & T2).
    rewrite Hcopy, T1, Hv in Hb by lia. injection Hb as <-.
    pose proof (Hbytes i v Hv) as Hbv.
    assert (Hvote_v : Decode.vote sgn v v c = v).
    { destruct (decide (i = n - 1)%nat) as [->|Hne].
      - replace (3 * (n - 1) + 2)%nat with (3 * n - 1)%nat in Hc by lia.
        rewrite Hz in Hc. injection Hc as <-.
        apply (vote_outvoted sgn v 0 Hbv). unfold is_byte. lia.
      - rewrite Hcopy, T2, Hv in Hc by lia. injection Hc as <-.
        apply (vote_outvoted sgn v v Hbv Hbv). }
    congruence.
Qed.

Lemma triplets_without_terminator_decode_witness :
  exists w r,
    Decode.dev_write false Decode.init (triplicate [65; 66]) = Ok w /\
    Decode.dev_read (state w) 256 = Ok r /\
    sent r = [65; 66] /\ ret r = 2.
Proof.
  apply (triplets_without_terminator_decode false Decode.init [65; 66]).
  - split; reflexivity.
  - simpl. lia.
  - repeat constructor; unfold is_byte; lia.
  - repeat constructor; lia.
  - reflexivity.
Defined.

(** ** Opens and releases *)

Lemma enc_frame_run (mid : list call) (st : device) :
  Forall opens_or_releases mid ->
  exists st', Encode.run st mid = Ok st' /\
    message st' = message st /\ temp st' = temp st /\
    messageSize st' = messageSize st.
Proof.
  intros Hmid. revert st. induction Hmid as [|c cs Hc _ IH]; intros st.
  - exists st. auto.
  - destruct c; try contradiction; cbn [Encode.run Encode.step];
      cbn [Encode.dev_open Encode.dev_release bind state].
    + destruct (IH {| message := message st; temp := temp st;
                      messageSize := messageSize st;
                      numberOpens := int_of (numberOpens st + 1) |})
        as (st' & Hrun & H). exists st'. auto.
    + apply IH.
Qed.

Lemma dec_frame_run (sgn : bool) (mid : list call) (st : device) :
  Forall opens_or_releases mid ->
  exists st', Decode.run sgn st mid = Ok st' /\
    message st' = message st /\ temp st' = temp st /\
    messageSize st' = messageSize st.
Proof.
  intros Hmid. revert st. induction Hmid as [|c cs Hc _ IH]; intros st.
  - exists st. auto.
  - destruct c; try contradiction; cbn [Decode.run Decode.step];
      cbn [Decode.dev_open Decode.dev_release bind state].
    + destruct (IH {| message := message st; temp := temp st;
                      messageSize := messageSize st;
                      numberOpens := int_of (numberOpens st + 1) |})
        as (st' & Hrun & H). exists st'. auto.
    + apply IH.
Qed.

Lemma enc_pending (st : device) (buffer : list Z) :
  enc_sized st -> (1 <= length buffer)%nat ->
  let p := upto_nul (all_but_last (take 256 buffer)) in
  exists w,
    Encode.dev_write st buffer = Ok w /\
    messageSize (state w) = Z.of_nat (3 * length p + 1) /\
    take (3 * length p + 1) (message (state w)) = triplicate p ++ [0] /\
    length (message (state w)) = 769%nat /\ (length p <= 255)%nat.
Proof.
  intros Hs Hb p.
  destruct (enc_encoded st (take 256 buffer) Hs)
    as (w & Hrun & _ & [Hm _] & Hp & Hsize & Hsent & _).
  { rewrite length_take. lia. }
  rewrite enc_write_clamp in Hrun. rewrite length_take in Hp.
  exists w. repeat split; try assumption. fold p in Hp. lia.
Qed.

(** X11.  What a write left pending survives every number of opens and
    releases, after any history of the device: writing, closing, opening
    again and reading (the way a shell uses the device files) hands over
    what a read right after the write hands over.  For the encoder this is
    the encoding of the bytes written; for the decoder, on a write of
    [3 n + 1] bytes, the decoding of its first [3 n] bytes. *)
Theorem pending_message_survives_opens
    (sgn : bool) (pre mid : list call) (x buffer : list Z) (n : nat) :
  Forall nonempty_write pre -> Forall opens_or_releases mid ->
  (1 <= length x)%nat ->
  length buffer = (3 * n + 1)%nat -> (n <= 256)%nat ->
  (exists st w st2 r,
     Encode.run Encode.init pre = Ok st /\
     Encode.dev_write st x = Ok w /\
     Encode.run (state w) mid = Ok st2 /\
     Encode.dev_read st2 769 = Ok r /\
     sent r = triplicate (upto_nul (all_but_last (take 256 x))) ++ [0]) /\
  (exists st w st2 r,
     Decode.run sgn Decode.init pre = Ok st /\
     Decode.dev_write sgn st buffer = Ok w /\
     Decode.run sgn (state w) mid = Ok st2 /\
     Decode.dev_read st2 256 = Ok r /\
     sent r = decode_ref sgn (take (3 * n) buffer)).
Proof.
  intros Hpre Hmid Hx Hlen Hn. split.
  - destruct (enc_run_inv pre Encode.init enc_inv_init Hpre) as (st & Hrun & Hs & _).
    destruct (enc_pending st x Hs Hx) as (w & Hw & Hsize & Hsent & Hm & Hp).
    destruct (enc_frame_run mid (state w) Hmid) as (st2 & Hrun2 & Em & _ & Es).
    exists st, w, st2. eexists.
    split; [exact Hrun|]. split; [exact Hw|]. split; [exact Hrun2|].
    rewrite enc_read_all by (rewrite ?Es, ?Em, ?Hsize, ?Hm, ?Nat2Z.id; lia).
    split; [reflexivity|]. cbn [sent].
    rewrite Es, Em, Hsize, Nat2Z.id. exact Hsent.
  - destruct (dec_run_inv sgn pre Decode.init dec_inv_init Hpre)
      as (st & Hrun & Hs & _).
    destruct (dec_aligned_pending sgn st buffer n Hs Hlen Hn)
      as (w & Hw & Hsize & Hsent & Hm & Hd).
    destruct (dec_frame_run sgn mid (state w) Hmid) as (st2 & Hrun2 & Em & _ & Es).
    exists st, w, st2. eexists.
    split; [exact Hrun|]. split; [exact Hw|]. split; [exact Hrun2|].
    rewrite dec_read_all by (rewrite ?Es, ?Em, ?Hsize, ?Hm, ?Nat2Z.id; lia).
    split; [reflexivity|]. cbn [sent].
    rewrite Es, Em, Hsize, Nat2Z.id. exact Hsent.
Qed.

Lemma pending_message_survives_opens_witness :
  (exists st w st2 r,
     Encode.run Encode.init [Open; Write [1; 2; 3; 4; 5; 6]; Release] = Ok st /\
     Encode.dev_write st [65; 66; 10] = Ok w /\
     Encode.run (state w) [Release; Open] = Ok st2 /\
     Encode.dev_read st2 769 = Ok r /\
     sent r = [65; 65; 65; 66; 66; 66; 0]) /\
  (exists st w st2 r,
     Decode.run true Decode.init [Open; Write [1; 2; 3; 4; 5; 6]; Release] = Ok st /\
     Decode.dev_write true st [65; 65; 65; 66; 66; 66; 0] = Ok w /\
     Decode.run true (state w) [Release; Open] = Ok st2 /\
     Decode.dev_read st2 256 = Ok r /\
     sent r = [65; 66]).
Proof.
  apply (pending_message_survives_opens true
           [Open; Write [1; 2; 3; 4; 5; 6]; Release] [Release; Open]
           [65; 66; 10] [65; 65; 65; 66; 66; 66; 0] 2).
  - constructor; [exact I|]. constructor; [simpl; lia|].
    constructor; [exact I|]. constructor.
  - repeat constructor.
  - simpl. lia.
  - reflexivity.
  - lia.
Defined.

Lemma int_of_add_l (a b : Z) : int_of (int_of a + b) = int_of (a + b).
Proof.
  unfold int_of. f_equal.
  replace ((a + 2147483648) mod 4294967296 - 2147483648 + b + 2147483648)
    with ((a + 2147483648) mod 4294967296 + b) by lia.
  rewrite Z.add_mod_idemp_l by lia. f_equal. lia.
Qed.

Lemma int_of_small (z : Z) : -2147483648 <= z < 2147483648 -> int_of z = z.
Proof. intros H. unfold int_of. rewrite Z.mod_small by lia. lia. Qed.

Lemma enc_step_opens (st : device) (c : call) (r : reply) :
  Encode.step st c = Ok r ->
  numberOpens (state r) = opens_after c (numberOpens st).
Proof.
  destruct c as [|w|buffer|]; cbn [Encode.step opens_after].
  - intros H. injection H as <-. reflexivity.
  - unfold Encode.dev_read.
    destruct (copy_to_user w (message st) (messageSize st)) as [[d ec]| |];
      cbn [bind]; try discriminate.
    destruct (ec =? 0); intros H; injection H as <-; reflexivity.
  - unfold Encode.dev_write.
    destruct (Encode.prepare st buffer) as [[len tmp]| |]; cbn [bind];
      try discriminate.
    destruct (Encode.triple_loop Encode.fuel tmp (message st) 0) as [[i m]| |];
      cbn [bind]; try discriminate.
    destruct (store m (3 * i) 0) as [m'| |]; cbn [bind]; try discriminate.
    intros H. injection H as <-. reflexivity.
  - intros H. injection H as <-. reflexivity.
Qed.

Lemma dec_step_opens (sgn : bool) (st : device) (c : call) (r : reply) :
  Decode.step sgn st c = Ok r ->
  numberOpens (state r) = opens_after c (numberOpens st).
Proof.
  destruct c as [|w|buffer|]; cbn [Decode.step opens_after].
  - intros H. injection H as <-. reflexivity.
  - unfold Decode.dev_read.
    destruct (copy_to_user w (message st) (messageSize st)) as [[d ec]| |];
      cbn [bind]; try discriminate.
    destruct (ec =? 0); intros H; injection H as <-; reflexivity.
  - unfold Decode.dev_write.
    destruct (Decode.prepare st buffer) as [[len tmp]| |]; cbn [bind];
      try discriminate.
    destruct (Decode.vote_loop sgn Decode.fuel tmp (message st) 0)
      as [[i m]| |]; cbn [bind]; try discriminate.
    intros H. injection H as <-. reflexivity.
  - intros H. injection H as <-. reflexivity.
Qed.

Lemma opens_after_count (c : call) (cs : list call) (n : Z) :
  int_of (opens_after c n + Z.of_nat (count_opens cs)) =
  int_of (n + Z.of_nat (count_opens (c :: cs))).
Proof.
  destruct c; cbn [opens_after count_opens]; try reflexivity.
  rewrite int_of_add_l. f_equal. lia.
Qed.

Lemma int_of_idem (z : Z) : int_of (int_of z) = int_of z.
Proof.
  pose proof (int_of_add_l z 0) as H. rewrite !Z.add_0_r in H. exact H.
Qed.

Lemma opens_after_in_range (c : call) (n : Z) :
  int_of n = n -> int_of (opens_after c n) = opens_after c n.
Proof.
  destruct c; cbn [opens_after]; auto. intros _. apply int_of_idem.
Qed.

Lemma enc_run_opens (cs : list call) (st : device) :
  enc_inv st -> Forall nonempty_write cs ->
  int_of (numberOpens st) = numberOpens st ->
  exists st', Encode.run st cs = Ok st' /\
    numberOpens st' = int_of (numberOpens st + Z.of_nat (count_opens cs)).
Proof.
  intros Hinv Hcs. revert st Hinv.
  induction Hcs as [|c cs Hc _ IH]; intros st Hinv Hrange.
  - exists st. split; [reflexivity|]. cbn [count_opens].
    rewrite Z.add_0_r. symmetry. exact Hrange.
  - destruct (enc_step_inv st c Hinv Hc) as (r & Hr & Hinv').
    pose proof (enc_step_opens st c r Hr) as Hopen.
    destruct (IH (state r) Hinv') as (st' & Hrun & Hn).
    { rewrite Hopen. apply opens_after_in_range. exact Hrange. }
    exists st'. cbn [Encode.run]. rewrite Hr. cbn [bind].
    split; [exact Hrun|].
    rewrite Hn, Hopen. apply opens_after_count.
Qed.

Lemma dec_run_opens (sgn : bool) (cs : list call) (st : device) :
  dec_inv st -> Forall nonempty_write cs ->
  int_of (numberOpens st) = numberOpens st ->
  exists st', Decode.run sgn st cs = Ok st' /\
    numberOpens st' = int_of (numberOpens st + Z.of_nat (count_opens cs)).
Proof.
  intros Hinv Hcs. revert st Hinv.
  induction Hcs as [|c cs Hc _ IH]; intros st Hinv Hrange.
  - exists st. split; [reflexivity|]. cbn [count_opens].
    rewrite Z.add_0_r. symmetry. exact Hrange.
  - destruct (dec_step_inv sgn st c Hinv Hc) as (r & Hr & Hinv').
    pose proof (dec_step_opens sgn st c r Hr) as Hopen.
    destruct (IH (state r) Hinv') as (st' & Hrun & Hn).
    { rewrite Hopen. apply opens_after_in_range. exact Hrange. }
    exists st'. cbn [Decode.run]. rewrite Hr. cbn [bind].
    split; [exact Hrun|].
    rewrite Hn, Hopen. apply opens_after_count.
Qed.

(** X12.  [numberOpens] counts the [open] calls and nothing else: after
    any sequence of calls on a fresh device it is the number of opens in
    the sequence, wrapped to an [int]; releases do not take the count
    down, and reads and writes leave it alone.  Below [2^31] opens it is
    the number itself. *)
Theorem number_opens_counts_opens (sgn : bool) (cs : list call) :
  Forall nonempty_write cs ->
  (exists st,
     Encode.run Encode.init cs = Ok st /\
     numberOpens st = int_of (Z.of_nat (count_opens cs)) /\
     (Z.of_nat (count_opens cs) < 2147483648 ->
      numberOpens st = Z.of_nat (count_opens cs))) /\
  (exists st,
     Decode.run sgn Decode.init cs = Ok st /\
     numberOpens st = int_of (Z.of_nat (count_opens cs)) /\
     (Z.of_nat (count_opens cs) < 2147483648 ->
      numberOpens st = Z.of_nat (count_opens cs))).
Proof.
  intros Hcs. split.
  - destruct (enc_run_opens cs Encode.init enc_inv_init Hcs eq_refl)
      as (st & Hrun & Hn).
    exists st. split; [exact Hrun|]. split; [exact Hn|].
    intros Hsmall. rewrite Hn. apply int_of_small. cbn [numberOpens Encode.init]. lia.
  - destruct (dec_run_opens sgn cs Decode.init dec_inv_init Hcs eq_refl)
      as (st & Hrun & Hn).
    exists st. split; [exact Hrun|]. split; [exact Hn|].
    intros Hsmall. rewrite Hn. apply int_of_small. cbn [numberOpens Decode.init]. lia.
Qed.

Lemma number_opens_counts_opens_witness :
  (exists st,
     Encode.run Encode.init [Open; Write [65; 10]; Release; Open; Read 8] = Ok st /\
     numberOpens st = 2 /\
     (2 < 2147483648 -> numberOpens st = 2)) /\
  (exists st,
     Decode.run false Decode.init [Open; Write [65; 10]; Release; Open; Read 8]
       = Ok st /\
     numberOpens st = 2 /\
     (2 < 2147483648 -> numberOpens st = 2)).
Proof.
  apply (number_opens_counts_opens false
           [Open; Write [65; 10]; Release; Open; Read 8]).
  constructor; [exact I|]. constructor; [simpl; lia|].
  repeat (constructor; [exact I|]). constructor.
Defined.

(** ** The vote *)

(** X13.  On bytes the vote does not depend on the order of the three
    copies nor on the signedness of [char], two equal copies decide it
    whatever the third is, and its result is a byte. *)
Theorem vote_is_symmetric (sgn sgn' : bool) (a b c : Z) :
  is_byte a -> is_byte b -> is_byte c ->
  Decode.vote sgn a b c = Decode.vote sgn' b a c /\
  Decode.vote sgn a b c = Decode.vote sgn' a c b /\
  Decode.vote sgn a a c = a /\
  is_byte (Decode.vote sgn a b c).
Proof.
  intros Ha Hb Hc. repeat split.
  - apply Z.bits_inj'. intros k _. rewrite !vote_bits by assumption.
    unfold majority.
    destruct (Z.testbit a k), (Z.testbit b k), (Z.testbit c k); reflexivity.
  - apply Z.bits_inj'. intros k _. rewrite !vote_bits by assumption.
    unfold majority.
    destruct (Z.testbit a k), (Z.testbit b k), (Z.testbit c k); reflexivity.
  - apply (vote_outvoted sgn a c Ha Hc).
  - unfold Decode.vote, char_of_int. apply Z.mod_pos_bound. lia.
  - unfold Decode.vote, char_of_int. apply Z.mod_pos_bound. lia.
Qed.

Lemma vote_is_symmetric_witness :
  Decode.vote true 200 13 77 = Decode.vote false 13 200 77 /\
  Decode.vote true 200 13 77 = Decode.vote false 200 77 13 /\
  Decode.vote true 200 200 77 = 200 /\
  is_byte (Decode.vote true 200 13 77).
Proof.
  apply (vote_is_symmetric true false 200 13 77); unfold is_byte; lia.
Defined.

(** ** Module initialisation and exit *)

Lemma resource_eqb_refl (r : resource) : resource_eqb r r = true.
Proof.
  destruct r; cbn [resource_eqb]; rewrite ?Z.eqb_refl, ?String.eqb_refl;
    reflexivity.
Qed.

Lemma IS_ERR_negative (ptr : Z) : IS_ERR ptr = true -> int_of (PTR_ERR ptr) < 0.
Proof.
  unfold IS_ERR, PTR_ERR, MAX_ERRNO. intros H.
  apply andb_true_iff in H as [H1 H2].
  apply Z.leb_le in H1. apply Z.ltb_lt in H2.
  rewrite int_of_small by lia. lia.
Qed.

Ltac kernel_trace :=
  unfold kernel_after;
  cbn [trace statics status app fold_left kstep majorNumber classPtr devicePtr];
  unfold acquire, release;
  repeat (cbn [fst snd existsb List.filter resource_eqb orb negb andb app
               Z.eqb];
          rewrite ?Z.eqb_refl, ?String.eqb_refl;
          repeat match goal with
                 | H : _ = true |- _ => rewrite H
                 | H : _ = false |- _ => rewrite H
                 end).


(** X15.  After an initialisation that returned 0, the exit function
    leaves nothing registered with the kernel: device, class and
    char-device region are released, the device first.  The class is
    handed back twice, by [class_unregister] and again by
    [class_destroy]; the second release finds nothing registered. *)
Theorem exit_releases_what_init_registered (k : kernel) (reg : registration) :
  status (encodeInit k reg) = 0 -> status (decodeInit k reg) = 0 ->
  kernel_after (trace (encodeInit k reg) ++ encodeExit (statics (encodeInit k reg)))
    = ([], [Class (class_reply k)]) /\
  kernel_after (trace (decodeInit k reg) ++ decodeExit (statics (decodeInit k reg)))
    = ([], [Class (class_reply k)]).
Proof.
  unfold encodeInit, decodeInit, encodeExit, decodeExit.
  destruct (chrdev_reply k <? 0) eqn:Hreg.
  { apply Z.ltb_lt in Hreg. cbn [status]. lia. }
  destruct (IS_ERR (class_reply k)) eqn:Hcls.
  { pose proof (IS_ERR_negative _ Hcls). cbn [status]. lia. }
  destruct (IS_ERR (device_reply k)) eqn:Hdev.
  { pose proof (IS_ERR_negative _ Hdev). cbn [status]. lia. }
  intros _ _. split; kernel_trace; reflexivity.
Qed.

Lemma exit_releases_what_init_registered_witness :
  kernel_after
    (trace (encodeInit (Kernel 240 4096 8192) (Registration 0 0 0)) ++
     encodeExit (statics (encodeInit (Kernel 240 4096 8192) (Registration 0 0 0))))
    = ([], [Class 4096]) /\
  kernel_after
    (trace (decodeInit (Kernel 240 4096 8192) (Registration 0 0 0)) ++
     decodeExit (statics (decodeInit (Kernel 240 4096 8192) (Registration 0 0 0))))
    = ([], [Class 4096]).
Proof.
  apply (exit_releases_what_init_registered
           (Kernel 240 4096 8192) (Registration 0 0 0)); reflexivity.
Defined.

(** ** The whole line under any noise that keeps the length *)

Lemma transmit_any_channel (sgn : bool) (enc dec : device)
    (channel : list Z -> list Z) (x : list Z) :
  enc_sized enc -> dec_sized dec -> (1 <= length x <= 256)%nat ->
  let p := upto_nul (all_but_last x) in
  let data := channel (triplicate p ++ [0]) in
  length data = (3 * length p + 1)%nat ->
  transmit sgn enc dec channel x =
  Ok (decode_ref sgn (take (3 * length p) data)).
Proof.
  intros He Hd Hx p data Hlen.
  destruct (enc_encoded enc x He Hx)
    as (w & Hw & _ & [Hwm _] & Hp & Hsize & Hsent & _).
  fold p in Hp, Hsize, Hsent.
  unfold transmit. rewrite Hw. cbn [bind].
  unfold Encode.MESSAGE_LEN in *.
  rewrite enc_read_all by (rewrite Hsize, ?Hwm; lia). cbn [bind sent state].
  rewrite Hsize, Nat2Z.id, Hsent. fold data.
  destruct (dec_aligned_pending sgn dec data (length p) Hd Hlen ltac:(lia))
    as (w' & Hw' & Hsize' & Hsent' & Hm' & Hd').
  rewrite Hw'. cbn [bind].
  rewrite dec_read_all by (rewrite Hsize', ?Hm', ?Nat2Z.id;
                           unfold Decode.MESSAGE_LEN; lia).
  cbn [bind sent]. rewrite Hsize', Nat2Z.id, Hsent'. reflexivity.
Qed.

(** X16.  Whatever the channel does to the bytes, as long as it delivers
    as many as were sent: the decoder's reader gets [decode_ref] of the
    received bytes without the last one, the votes of the received
    triplets up to the first one that starts with a zero byte.  What the
    two devices held before does not matter, nor does the received
    terminator byte. *)
Theorem line_decodes_what_is_received
    (sgn : bool) (enc dec : device) (channel : list Z -> list Z) (x : list Z) :
  enc_sized enc -> dec_sized dec -> (1 <= length x <= 256)%nat ->
  length (channel (triplicate (upto_nul (all_but_last x)) ++ [0])) =
    length (triplicate (upto_nul (all_but_last x)) ++ [0]) ->
  transmit sgn enc dec channel x =
  Ok (decode_ref sgn
        (all_but_last (channel (triplicate (upto_nul (all_but_last x)) ++ [0])))).
Proof.
  intros He Hd Hx Hlen.
  rewrite length_app, length_triplicate in Hlen. simpl in Hlen.
  rewrite transmit_any_channel by assumption.
  unfold all_but_last at 3. rewrite Hlen. do 3 f_equal. lia.
Qed.

Lemma line_decodes_what_is_received_witness :
  transmit false Encode.init Decode.init (fun data => reverse data) [65; 66; 10]
  = Ok (decode_ref false (all_but_last (reverse [65; 65; 65; 66; 66; 66; 0]))).
Proof.
  apply (line_decodes_what_is_received false Encode.init Decode.init
           (fun data => reverse data) [65; 66; 10]).
  - split; reflexivity.
  - split; reflexivity.
  - simpl. lia.
  - reflexivity.
Defined.

(** X17.  One corrupted copy can still cut the message short: when the
    noise turns the first copy of triplet [t] into a zero byte, the
    decoder takes it for the terminator and returns the first [t] bytes
    only, although the other two copies of that triplet are intact. *)
Theorem zeroed_first_copy_truncates
    (sgn : bool) (enc dec : device) (x : list Z) (t : nat) (b : Z) :
  enc_sized enc -> dec_sized dec -> (1 <= length x <= 256)%nat ->
  Forall is_byte x -> Forall (fun b => b <> 0) x ->
  (t < length x - 1)%nat -> x !! t = Some b ->
  transmit sgn enc dec (corrupt t 0 b) x = Ok (take t x).
Proof.
  intros He Hd Hx Hbytes Hnz Ht Hb.
  assert (Hp : upto_nul (all_but_last x) = all_but_last x)
    by (apply all_but_last_nonzero; assumption).
  assert (Hl : length (all_but_last x) = (length x - 1)%nat).
  { unfold all_but_last. rewrite length_take. lia. }
  rewrite transmit_any_channel; try assumption; rewrite Hp.
  2: { unfold corrupt. rewrite length_alter, length_app, length_triplicate.
       simpl. lia. }
  f_equal. apply (decode_ref_scan sgn t).
  - rewrite length_take. lia.
  - left. rewrite lookup_take_lt by lia. unfold corrupt.
    rewrite Nat.add_0_r, list_lookup_alter_eq.
    destruct (sent_lookup (all_but_last x) t) as (S0 & _); [lia|].
    rewrite S0. unfold all_but_last. rewrite lookup_take_lt, Hb by lia.
    cbn. unfold flip_bits. rewrite Z.lxor_nilpotent. reflexivity.
  - intros j Hj.
    destruct (lookup_in_range x j) as [v Hv]; [lia|].
    assert (Hpv : all_but_last x !! j = Some v).
    { unfold all_but_last. rewrite lookup_take_lt by lia. exact Hv. }
    destruct (sent_lookup (all_but_last x) j) as (S0 & S1 & S2); [lia|].
    rewrite Hpv in S0, S1, S2.
    rewrite Forall_lookup in Hbytes. rewrite Forall_lookup in Hnz.
    pose proof (Hbytes j v Hv) as Hbv.
    exists v, v, v. rewrite !lookup_take_lt by lia.
    unfold corrupt. rewrite !list_lookup_alter_ne by lia.
    rewrite S0, S1, S2. repeat split; eauto.
    rewrite Hv. f_equal. symmetry.
    apply (vote_outvoted sgn v v Hbv Hbv).
Qed.

Lemma zeroed_first_copy_truncates_witness :
  transmit false Encode.init Decode.init (corrupt 1 0 66) [65; 66; 67; 10]
  = Ok [65].
Proof.
  apply (zeroed_first_copy_truncates false Encode.init Decode.init
           [65; 66; 67; 10] 1 66).
  - split; reflexivity.
  - split; reflexivity.
  - simpl. lia.
  - repeat constructor; unfold is_byte; lia.
  - repeat constructor; lia.
  - simpl. lia.
  - reflexivity.
Defined.
